(** * Section structure of the RPM branch of the Pulp admin CLI

    A verification development for
    [extensions_admin/pulp_rpm/extensions/admin/structure.py].

    The module builds a fixed tree of CLI sections under the section
    [rpm] and offers accessors that walk a fixed path from the root of
    the CLI.  Sections are mutable Python objects shared by reference, so
    the CLI is modelled as a store of section objects addressed by
    locations; a Python value that may be [None] is an [option loc]. *)

From stdpp Require Import base option list strings gmap.

Open Scope string_scope.
Open Scope list_scope.

(** ** Section objects and the CLI store *)

Definition loc := positive.

(** A section object: its [name], its [description] and its child
    sections in the order in which they were added, each under the name
    it was created with. *)
Record Section := mkSection {
  name : string;
  description : string;
  subsections : list (string * loc)
}.

(** One creation received by the CLI: [Created parent n d l] records that
    a child named [n], described by [d], was made under [parent] and
    lives at [l]. *)
Inductive event :=
| Created (parent : loc) (n d : string) (l : loc).

(** The CLI: the store of section objects, the location of its root
    section, and (ghost) the creations it has served so far, oldest
    first. *)
Record PulpCli := mkCli {
  heap : gmap loc Section;
  root_section : loc;
  created : list event
}.

(** A Python value of type "section or [None]". *)
Definition value := option loc.

(** ** Exceptions and the state/exception monad *)

Inductive exn :=
| AttributeError      (* a method was looked up on [None] *)
| UnspecifiedCreation (* creation under a name the parent already has *)
| DanglingReference.  (* a location outside the store; Python has none *)

Inductive outcome (A : Type) :=
| Ok (a : A)
| Raise (e : exn).
Arguments Ok {A} a.
Arguments Raise {A} e.

(** A computation reads and mutates the CLI and either returns or
    raises; mutations made before a raise persist. *)
Definition M (A : Type) := PulpCli -> outcome A * PulpCli.

Definition ret {A} (a : A) : M A := fun cli => (Ok a, cli).

Definition raise {A} (e : exn) : M A := fun cli => (Raise e, cli).

Definition bind {A B} (m : M A) (k : A -> M B) : M B :=
  fun cli =>
    match m cli with
    | (Ok a, cli') => k a cli'
    | (Raise e, cli') => (Raise e, cli')
    end.

Notation "x <- m ;; k" := (bind m (fun x => k))
  (at level 100, m at next level, right associativity).
Notation "m ;;; k" := (bind m (fun _ => k))
  (at level 100, right associativity).

(** The [for] loop over a tuple of (name, description) pairs. *)
Fixpoint for_each {A} (xs : list A) (body : A -> M unit) : M unit :=
  match xs with
  | [] => ret tt
  | x :: xs' => body x ;;; for_each xs' body
  end.

(** ** The collaborator: PulpCli and PulpCliSection

    Modelled from the spec: the classes [PulpCli] and [PulpCliSection]
    live in [pulp.client.extensions.core], outside this repository.  The
    model follows the capabilities the specification lists: lookup of a
    child by exact name, returning the child or [None]; creation of a new
    named child, returning it; the top-level [find_section] and
    [create_section] of the CLI act on [cli.root_section]. *)

(** First child stored under the name [n]. *)
Fixpoint lookup_name (n : string) (kids : list (string * loc)) : value :=
  match kids with
  | [] => None
  | (k, l) :: kids' => if String.eqb k n then Some l else lookup_name n kids'
  end.

(** [self.find_subsection(n)]; [self] may be [None], on which the
    attribute lookup raises. *)
Definition find_subsection (self : value) (n : string) : M value :=
  fun cli =>
    match self with
    | None => (Raise AttributeError, cli)
    | Some l =>
        match heap cli !! l with
        | None => (Raise DanglingReference, cli)
        | Some s => (Ok (lookup_name n (subsections s)), cli)
        end
    end.

(** [self.create_subsection(n, d)]: a new section object, added as the
    last child of [self], and returned.  What the collaborator does when
    [self] already has a child named [n] is not specified; the model
    stops there with [UnspecifiedCreation]. *)
Definition create_subsection (self : value) (n d : string) : M value :=
  fun cli =>
    match self with
    | None => (Raise AttributeError, cli)
    | Some l =>
        match heap cli !! l with
        | None => (Raise DanglingReference, cli)
        | Some s =>
            match lookup_name n (subsections s) with
            | Some _ => (Raise UnspecifiedCreation, cli)
            | None =>
                let l' := fresh (dom (heap cli)) in
                let s' := mkSection (name s) (description s)
                                    (subsections s ++ [(n, l')]) in
                (Ok (Some l'),
                 mkCli (<[l := s']> (<[l' := mkSection n d []]> (heap cli)))
                       (root_section cli)
                       (created cli ++ [Created l n d l']))
            end
        end
    end.

(** [cli.root_section] *)
Definition get_root_section : M value :=
  fun cli => (Ok (Some (root_section cli)), cli).

(** [cli.find_section(n)] *)
Definition find_section (n : string) : M value :=
  fun cli => find_subsection (Some (root_section cli)) n cli.

(** [cli.create_section(n, d)] *)
Definition create_section (n d : string) : M value :=
  fun cli => create_subsection (Some (root_section cli)) n d cli.

(** ** The module [structure.py] *)

Section Structure.

(** [from gettext import gettext as _]: the message-catalog lookup, applied
    once to every description when the module is loaded. *)
Variable gettext : string -> string.

Definition SECTION_ROOT := "rpm".
Definition SECTION_REPO := "repo".
Definition SECTION_COPY := "copy".
Definition SECTION_UPLOADS := "uploads".
Definition SECTION_REMOVE := "remove".
Definition SECTION_CONTENTS := "content".
Definition SECTION_SYNC := "sync".
Definition SECTION_SYNC_SCHEDULES := "schedules".
Definition SECTION_PUBLISH := "publish".
Definition SECTION_EXPORT := "export".
Definition SECTION_GROUP := "group".

Definition DESC_ROOT := gettext "manage RPM-related content and features".
Definition DESC_REPO := gettext "repository lifecycle commands".
Definition DESC_COPY :=
  gettext "copies one or more content units between repositories".
Definition DESC_UPLOADS := gettext "upload modules into a repository".
Definition DESC_REMOVE :=
  gettext "remove copied or uploaded modules from a repository".
Definition DESC_CONTENTS := gettext "search the contents of a repository".
Definition DESC_SYNC :=
  gettext "run, schedule, or view the status of sync tasks".
Definition DESC_SYNC_SCHEDULES := gettext "manage repository sync schedules".
Definition DESC_PUBLISH := gettext "run or view the status of publish tasks".
Definition DESC_EXPORT :=
  gettext "run or view the status of a repository export".
Definition DESC_GROUP_EXPORT :=
  gettext "run or view the status of a repository group export".
Definition DESC_GROUP := gettext "repository group commands".

(** [_find_section(cli, *path)]: starts at [cli.root_section] and replaces
    [section] by [section.find_subsection(p)] for each [p] of the path;
    nothing tests [section] against [None] between two steps. *)
Fixpoint walk (section : value) (path : list string) : M value :=
  match path with
  | [] => ret section
  | p :: path' => section' <- find_subsection section p ;; walk section' path'
  end.

Definition _find_section (path : list string) : M value :=
  section <- get_root_section ;; walk section path.

Definition repo_section : M value :=
  _find_section [SECTION_ROOT; SECTION_REPO].
Definition repo_copy_section : M value :=
  _find_section [SECTION_ROOT; SECTION_REPO; SECTION_COPY].
Definition repo_remove_section : M value :=
  _find_section [SECTION_ROOT; SECTION_REPO; SECTION_REMOVE].
Definition repo_uploads_section : M value :=
  _find_section [SECTION_ROOT; SECTION_REPO; SECTION_UPLOADS].
Definition repo_contents_section : M value :=
  _find_section [SECTION_ROOT; SECTION_REPO; SECTION_CONTENTS].
Definition repo_sync_section : M value :=
  _find_section [SECTION_ROOT; SECTION_REPO; SECTION_SYNC].
Definition repo_sync_schedules_section : M value :=
  _find_section
    [SECTION_ROOT; SECTION_REPO; SECTION_SYNC; SECTION_SYNC_SCHEDULES].
Definition repo_publish_section : M value :=
  _find_section [SECTION_ROOT; SECTION_REPO; SECTION_PUBLISH].
Definition repo_export_section : M value :=
  _find_section [SECTION_ROOT; SECTION_REPO; SECTION_EXPORT].
Definition repo_group_section : M value :=
  _find_section [SECTION_ROOT; SECTION_REPO; SECTION_GROUP].
Definition repo_group_export_section : M value :=
  _find_section [SECTION_ROOT; SECTION_REPO; SECTION_GROUP; SECTION_EXPORT].

Definition ensure_root : M value :=
  root_section <- find_section SECTION_ROOT ;;
  match root_section with
  | None => create_section SECTION_ROOT DESC_ROOT
  | Some _ => ret root_section
  end.

Definition direct_subsections : list (string * string) :=
  [ (SECTION_COPY, DESC_COPY);
    (SECTION_REMOVE, DESC_REMOVE);
    (SECTION_CONTENTS, DESC_CONTENTS);
    (SECTION_UPLOADS, DESC_UPLOADS);
    (SECTION_SYNC, DESC_SYNC);
    (SECTION_PUBLISH, DESC_PUBLISH);
    (SECTION_EXPORT, DESC_EXPORT);
    (SECTION_GROUP, DESC_GROUP) ].

Definition ensure_repo_structure : M value :=
  root_section <- ensure_root ;;
  repo_section <- find_subsection root_section SECTION_REPO ;;
  match repo_section with
  | Some _ => ret repo_section
  | None =>
      repo_section <- create_subsection root_section SECTION_REPO DESC_REPO ;;
      for_each direct_subsections
        (fun '(name, description) =>
           create_subsection repo_section name description ;;; ret tt) ;;;
      sync_section <- repo_sync_section ;;
      create_subsection sync_section
        SECTION_SYNC_SCHEDULES DESC_SYNC_SCHEDULES ;;;
      group_section <- repo_group_section ;;
      create_subsection group_section SECTION_EXPORT DESC_GROUP_EXPORT ;;;
      ret repo_section
  end.

(** The accessor family, by name. *)
Inductive accessor :=
| Repo | Copy | Remove | Uploads | Contents | Sync | SyncSchedules
| Publish | Export | Group | GroupExport.

Definition accessor_section (a : accessor) : M value :=
  match a with
  | Repo => repo_section
  | Copy => repo_copy_section
  | Remove => repo_remove_section
  | Uploads => repo_uploads_section
  | Contents => repo_contents_section
  | Sync => repo_sync_section
  | SyncSchedules => repo_sync_schedules_section
  | Publish => repo_publish_section
  | Export => repo_export_section
  | Group => repo_group_section
  | GroupExport => repo_group_export_section
  end.

(** The path each accessor hands to [_find_section]. *)
Definition accessor_path (a : accessor) : list string :=
  match a with
  | Repo => [SECTION_ROOT; SECTION_REPO]
  | Copy => [SECTION_ROOT; SECTION_REPO; SECTION_COPY]
  | Remove => [SECTION_ROOT; SECTION_REPO; SECTION_REMOVE]
  | Uploads => [SECTION_ROOT; SECTION_REPO; SECTION_UPLOADS]
  | Contents => [SECTION_ROOT; SECTION_REPO; SECTION_CONTENTS]
  | Sync => [SECTION_ROOT; SECTION_REPO; SECTION_SYNC]
  | SyncSchedules =>
      [SECTION_ROOT; SECTION_REPO; SECTION_SYNC; SECTION_SYNC_SCHEDULES]
  | Publish => [SECTION_ROOT; SECTION_REPO; SECTION_PUBLISH]
  | Export => [SECTION_ROOT; SECTION_REPO; SECTION_EXPORT]
  | Group => [SECTION_ROOT; SECTION_REPO; SECTION_GROUP]
  | GroupExport => [SECTION_ROOT; SECTION_REPO; SECTION_GROUP; SECTION_EXPORT]
  end.

(** The fixed schema: the name and the description of the section each
    accessor is for, as the table of paths and descriptions gives them. *)
Definition schema_name (a : accessor) : string :=
  match a with
  | Repo => "repo"
  | Copy => "copy"
  | Remove => "remove"
  | Uploads => "uploads"
  | Contents => "content"
  | Sync => "sync"
  | SyncSchedules => "schedules"
  | Publish => "publish"
  | Export => "export"
  | Group => "group"
  | GroupExport => "export"
  end.

Definition schema_description (a : accessor) : string :=
  match a with
  | Repo => gettext "repository lifecycle commands"
  | Copy => gettext "copies one or more content units between repositories"
  | Remove => gettext "remove copied or uploaded modules from a repository"
  | Uploads => gettext "upload modules into a repository"
  | Contents => gettext "search the contents of a repository"
  | Sync => gettext "run, schedule, or view the status of sync tasks"
  | SyncSchedules => gettext "manage repository sync schedules"
  | Publish => gettext "run or view the status of publish tasks"
  | Export => gettext "run or view the status of a repository export"
  | Group => gettext "repository group commands"
  | GroupExport =>
      gettext "run or view the status of a repository group export"
  end.

(** The operations the module offers, and a caller that performs a list
    of them one after the other on the same CLI, going on after an
    operation that raised. *)
Inductive operation :=
| EnsureRoot
| EnsureRepoStructure
| Access (a : accessor).

Definition run (o : operation) : M value :=
  match o with
  | EnsureRoot => ensure_root
  | EnsureRepoStructure => ensure_repo_structure
  | Access a => accessor_section a
  end.

Definition run_all (ops : list operation) (cli : PulpCli) : PulpCli :=
  fold_left (fun c o => (run o c).2) ops cli.

(** A CLI that has only its root section, named and described by the
    empty string, as a newly constructed CLI has. *)
Definition fresh_cli : PulpCli :=
  mkCli {[ 1%positive := mkSection "" "" [] ]} 1%positive [].


(** ** States, creations and the growth order *)

(** No dangling reference: the root and every child of a stored section
    are stored.  Every state a Python program can build satisfies this. *)
Definition wf (cli : PulpCli) : Prop :=
  is_Some (heap cli !! root_section cli) /\
  forall l s n c, heap cli !! l = Some s -> (n, c) ∈ subsections s ->
                  is_Some (heap cli !! c).

(** Sibling names are unique within every parent. *)
Definition unique_names (cli : PulpCli) : Prop :=
  forall l s, heap cli !! l = Some s -> NoDup (subsections s).*1.

(** The location an event created. *)
Definition event_loc (e : event) : loc :=
  match e with Created _ _ _ l => l end.

(** [extends c c']: [c'] has the root of [c]; every section of [c] is
    still there under the same name and description, its children of
    [c] still the first ones and in their order; the creations of [c]
    start those of [c']; every section that [c] has not is one that a
    recorded creation made. *)
Definition extends (c c' : PulpCli) : Prop :=
  root_section c' = root_section c /\
  created c `prefix_of` created c' /\
  (forall l s, heap c !! l = Some s ->
     exists s', heap c' !! l = Some s' /\ name s' = name s /\
                description s' = description s /\
                subsections s `prefix_of` subsections s') /\
  (forall l, heap c !! l = None -> is_Some (heap c' !! l) ->
     exists e, e ∈ created c' /\ event_loc e = l).

(** The state after the creation [e], when its parent is stored. *)
Definition replay (cli : PulpCli) (e : event) : PulpCli :=
  match e with
  | Created p n d l =>
      match heap cli !! p with
      | Some s =>
          mkCli (<[p := mkSection (name s) (description s)
                                  (subsections s ++ [(n, l)])]>
                   (<[l := mkSection n d []]> (heap cli)))
                (root_section cli)
                (created cli ++ [e])
      | None => cli
      end
  end.

(** The state after a list of creations, applied oldest first. *)
Definition replay_all (cli : PulpCli) (evs : list event) : PulpCli :=
  fold_left replay evs cli.

(** The creations of the loop: the items in their order, each at its
    location. *)
Definition loop_events (p : loc) (items : list (string * string))
    (ls : list loc) : list event :=
  zip_with (fun item l => Created p item.1 item.2 l) items ls.

(** The locations of the eleven sections the branch creates. *)
Record new_locs := mkNew {
  l_repo : loc;
  l_copy : loc;
  l_remove : loc;
  l_content : loc;
  l_uploads : loc;
  l_sync : loc;
  l_publish : loc;
  l_export : loc;
  l_group : loc;
  l_schedules : loc;
  l_group_export : loc
}.

Definition direct_locs (nl : new_locs) : list loc :=
  [l_copy nl; l_remove nl; l_content nl; l_uploads nl;
   l_sync nl; l_publish nl; l_export nl; l_group nl].

Definition all_new (nl : new_locs) : list loc :=
  l_repo nl :: direct_locs nl ++ [l_schedules nl; l_group_export nl].

(** The creations of the branch, oldest first, under the section [m]
    that [ensure_root] returned. *)
Definition creation_events (m : loc) (nl : new_locs) : list event :=
  [ Created m SECTION_REPO DESC_REPO (l_repo nl);
    Created (l_repo nl) SECTION_COPY DESC_COPY (l_copy nl);
    Created (l_repo nl) SECTION_REMOVE DESC_REMOVE (l_remove nl);
    Created (l_repo nl) SECTION_CONTENTS DESC_CONTENTS (l_content nl);
    Created (l_repo nl) SECTION_UPLOADS DESC_UPLOADS (l_uploads nl);
    Created (l_repo nl) SECTION_SYNC DESC_SYNC (l_sync nl);
    Created (l_repo nl) SECTION_PUBLISH DESC_PUBLISH (l_publish nl);
    Created (l_repo nl) SECTION_EXPORT DESC_EXPORT (l_export nl);
    Created (l_repo nl) SECTION_GROUP DESC_GROUP (l_group nl);
    Created (l_sync nl) SECTION_SYNC_SCHEDULES DESC_SYNC_SCHEDULES
            (l_schedules nl);
    Created (l_group nl) SECTION_EXPORT DESC_GROUP_EXPORT
            (l_group_export nl) ].

(** The section each accessor is for, among the new ones. *)
Definition accessor_loc (nl : new_locs) (a : accessor) : loc :=
  match a with
  | Repo => l_repo nl
  | Copy => l_copy nl
  | Remove => l_remove nl
  | Uploads => l_uploads nl
  | Contents => l_content nl
  | Sync => l_sync nl
  | SyncSchedules => l_schedules nl
  | Publish => l_publish nl
  | Export => l_export nl
  | Group => l_group nl
  | GroupExport => l_group_export nl
  end.

(** [grows m]: whatever [m] does, returning or raising, the CLI it leaves
    extends the CLI it started from. *)
Definition grows {A} (m : M A) : Prop :=
  forall cli, extends cli (m cli).2.

(** The eleven accessors. *)
Definition all_accessors : list accessor :=
  [Repo; Copy; Remove; Uploads; Contents; Sync; SyncSchedules; Publish;
   Export; Group; GroupExport].

(** Executable checks of [wf] and [unique_names]. *)
Definition wfb (cli : PulpCli) : bool :=
  bool_decide (is_Some (heap cli !! root_section cli)) &&
  forallb
    (fun ls : loc * Section =>
       forallb (fun nc : string * loc =>
                  bool_decide (is_Some (heap cli !! nc.2)))
               (subsections ls.2))
    (map_to_list (heap cli)).

Definition unique_namesb (cli : PulpCli) : bool :=
  forallb (fun ls : loc * Section =>
             bool_decide (NoDup (subsections ls.2).*1))
          (map_to_list (heap cli)).

(** A CLI whose root has the section [rpm] and nothing below it. *)
Definition rpm_only_cli : PulpCli :=
  mkCli (list_to_map
           [ (1%positive, mkSection "" "" [("rpm", 2%positive)]);
             (2%positive,
              mkSection "rpm" "manage RPM-related content and features" []) ])
        1%positive
        [Created 1%positive "rpm" "manage RPM-related content and features"
                 2%positive].

(** A CLI that has [rpm.repo] and [rpm.repo.sync] but none of the other
    subsections of [repo]; in particular [rpm.repo.publish] is missing. *)
Definition partial_cli : PulpCli :=
  mkCli (list_to_map
           [ (1%positive, mkSection "" "" [("rpm", 2%positive)]);
             (2%positive, mkSection "rpm" "" [("repo", 3%positive)]);
             (3%positive, mkSection "repo" "" [("sync", 4%positive)]);
             (4%positive, mkSection "sync" "" []) ])
        1%positive [].

(** The CLI that [ensure_repo_structure] builds from [fresh_cli] when the
    message catalog is empty. *)
Definition built_cli : PulpCli :=
  mkCli
    (list_to_map
       [ (1%positive, mkSection "" "" [("rpm", 2%positive)]);
         (2%positive,
          mkSection "rpm" "manage RPM-related content and features"
            [("repo", 3%positive)]);
         (3%positive,
          mkSection "repo" "repository lifecycle commands"
            [ ("copy", 4%positive); ("remove", 5%positive);
              ("content", 6%positive); ("uploads", 7%positive);
              ("sync", 8%positive); ("publish", 9%positive);
              ("export", 10%positive); ("group", 11%positive) ]);
         (4%positive,
          mkSection "copy"
            "copies one or more content units between repositories" []);
         (5%positive,
          mkSection "remove"
            "remove copied or uploaded modules from a repository" []);
         (6%positive,
          mkSection "content" "search the contents of a repository" []);
         (7%positive,
          mkSection "uploads" "upload modules into a repository" []);
         (8%positive,
          mkSection "sync" "run, schedule, or view the status of sync tasks"
            [("schedules", 12%positive)]);
         (9%positive,
          mkSection "publish" "run or view the status of publish tasks" []);
         (10%positive,
          mkSection "export"
            "run or view the status of a repository export" []);
         (11%positive,
          mkSection "group" "repository group commands"
            [("export", 13%positive)]);
         (12%positive,
          mkSection "schedules" "manage repository sync schedules" []);
         (13%positive,
          mkSection "export"
            "run or view the status of a repository group export" []) ])
    1%positive
    (created rpm_only_cli ++
     creation_events 2%positive
       (mkNew 3%positive 4%positive 5%positive 6%positive 7%positive
              8%positive 9%positive 10%positive 11%positive 12%positive
              13%positive)).

(** The section an event was created under. *)
Definition event_parent (e : event) : loc :=
  match e with Created p _ _ _ => p end.

(** The children that the creations [evs] add to the section [q], in
    their order. *)
Fixpoint children_added (q : loc) (evs : list event) : list (string * loc) :=
  match evs with
  | [] => []
  | Created p n _ l :: evs' =>
      if decide (p = q) then (n, l) :: children_added q evs'
      else children_added q evs'
  end.

(** The accessor whose path an accessor's path extends by one segment;
    [repo_section] extends the top-level lookup of [rpm]. *)
Definition accessor_parent (a : accessor) : option accessor :=
  match a with
  | Repo => None
  | SyncSchedules => Some Sync
  | GroupExport => Some Group
  | _ => Some Repo
  end.

(** The position, among the new locations, of the section an accessor is
    for. *)
Definition accessor_index (a : accessor) : nat :=
  match a with
  | Repo => 0
  | Copy => 1
  | Remove => 2
  | Contents => 3
  | Uploads => 4
  | Sync => 5
  | Publish => 6
  | Export => 7
  | Group => 8
  | SyncSchedules => 9
  | GroupExport => 10
  end.

(** The children of each new section once the creation branch is over. *)
Definition schema_children (nl : new_locs) (a : accessor)
    : list (string * loc) :=
  match a with
  | Repo =>
      [ (SECTION_COPY, l_copy nl); (SECTION_REMOVE, l_remove nl);
        (SECTION_CONTENTS, l_content nl); (SECTION_UPLOADS, l_uploads nl);
        (SECTION_SYNC, l_sync nl); (SECTION_PUBLISH, l_publish nl);
        (SECTION_EXPORT, l_export nl); (SECTION_GROUP, l_group nl) ]
  | Sync => [(SECTION_SYNC_SCHEDULES, l_schedules nl)]
  | Group => [(SECTION_EXPORT, l_group_export nl)]
  | _ => []
  end.

(** A CLI that has [rpm.repo] and nothing below it. *)
Definition repo_only_cli : PulpCli :=
  mkCli (list_to_map
           [ (1%positive, mkSection "" "" [("rpm", 2%positive)]);
             (2%positive, mkSection "rpm" "" [("repo", 3%positive)]);
             (3%positive, mkSection "repo" "" []) ])
        1%positive [].

(** A CLI that has, beside an empty [rpm], the section [puppet.repo] of
    another extension. *)
Definition mixed_cli : PulpCli :=
  mkCli (list_to_map
           [ (1%positive,
              mkSection "" "" [("puppet", 2%positive); ("rpm", 4%positive)]);
             (2%positive, mkSection "puppet" "" [("repo", 3%positive)]);
             (3%positive, mkSection "repo" "" []);
             (4%positive, mkSection "rpm" "" []) ])
        1%positive [].

(** ** Basic facts on child lookup *)

Lemma lookup_name_app n kids kids' :
  lookup_name n (kids ++ kids') =
  match lookup_name n kids with
  | Some c => Some c
  | None => lookup_name n kids'
  end.
Proof.
  induction kids as [|[k l] kids IH]; simpl; [done|].
  by destruct (String.eqb k n).
Qed.

Lemma lookup_name_prefix n kids kids' c :
  kids `prefix_of` kids' ->
  lookup_name n kids = Some c -> lookup_name n kids' = Some c.
Proof.
  intros [rest ->] H. by rewrite lookup_name_app, H.
Qed.

Lemma lookup_name_Some n kids c :
  lookup_name n kids = Some c -> (n, c) ∈ kids.
Proof.
  induction kids as [|[k l] kids IH]; simpl; [done|].
  destruct (String.eqb k n) eqn:E.
  - apply String.eqb_eq in E as ->. intros [= ->]. left.
  - intros H. right. auto.
Qed.

Lemma lookup_name_None n kids :
  lookup_name n kids = None <-> n ∉ kids.*1.
Proof.
  induction kids as [|[k l] kids IH]; simpl.
  - split; [intros _; apply not_elem_of_nil | done].
  - destruct (String.eqb k n) eqn:E.
    + apply String.eqb_eq in E as ->. split; [done|].
      intros H. destruct H. left.
    + apply String.eqb_neq in E. rewrite IH, not_elem_of_cons.
      split; [intros H; split; [congruence|done] | by intros [_ H]].
Qed.

(** ** The growth order *)

Lemma extends_refl c : extends c c.
Proof.
  repeat split; [done|..].
  - intros l s H. by exists s.
  - intros l H [s H']. congruence.
Qed.

Lemma extends_trans c1 c2 c3 : extends c1 c2 -> extends c2 c3 -> extends c1 c3.
Proof.
  intros (R1 & P1 & K1 & N1) (R2 & P2 & K2 & N2). repeat split.
  - congruence.
  - by etrans.
  - intros l s H. destruct (K1 _ _ H) as (s' & H' & ? & ? & ?).
    destruct (K2 _ _ H') as (s'' & H'' & ? & ? & ?).
    exists s''. repeat split; [done|congruence|congruence|by etrans].
  - intros l H H3. destruct (heap c2 !! l) as [s2|] eqn:E2.
    + destruct (N1 l H) as (e & He & <-); [by eexists|].
      exists e. split; [|done]. destruct P2 as [k ->]. set_solver.
    + by apply N2.
Qed.

(** A child found in [c] is found, the same one, in every extension. *)
Lemma extends_find c c' l n x :
  extends c c' ->
  find_subsection (Some l) n c = (Ok (Some x), c) ->
  find_subsection (Some l) n c' = (Ok (Some x), c').
Proof.
  intros (_ & _ & K & _). unfold find_subsection.
  destruct (heap c !! l) as [s|] eqn:E; [|done].
  intros [= H]. destruct (K _ _ E) as (s' & -> & _ & _ & P).
  by rewrite (lookup_name_prefix _ _ _ _ P H).
Qed.


Lemma wfb_sound cli : wfb cli = true -> wf cli.
Proof.
  unfold wfb. intros H. apply andb_true_iff in H as [H1 H2].
  apply bool_decide_eq_true in H1. split; [done|].
  intros l s n c Hl Hc. rewrite forallb_forall in H2.
  apply elem_of_map_to_list, list_elem_of_In in Hl.
  specialize (H2 _ Hl). simpl in H2. rewrite forallb_forall in H2.
  apply list_elem_of_In in Hc. specialize (H2 _ Hc).
  by apply bool_decide_eq_true in H2.
Qed.

Lemma unique_namesb_sound cli : unique_namesb cli = true -> unique_names cli.
Proof.
  unfold unique_namesb. intros H l s Hl. rewrite forallb_forall in H.
  apply elem_of_map_to_list, list_elem_of_In in Hl.
  specialize (H _ Hl). by apply bool_decide_eq_true in H.
Qed.

(** ** Replaying a creation *)

Lemma replay_all_nil cli : replay_all cli [] = cli.
Proof. done. Qed.

Lemma replay_all_cons cli e evs :
  replay_all cli (e :: evs) = replay_all (replay cli e) evs.
Proof. done. Qed.

Lemma replay_all_app cli evs evs' :
  replay_all cli (evs ++ evs') = replay_all (replay_all cli evs) evs'.
Proof. apply fold_left_app. Qed.

(** A successful creation is the replay of its event, at a location the
    store did not have. *)
Lemma create_subsection_ok cli p s n d :
  heap cli !! p = Some s ->
  lookup_name n (subsections s) = None ->
  exists l,
    heap cli !! l = None /\
    create_subsection (Some p) n d cli =
      (Ok (Some l), replay cli (Created p n d l)).
Proof.
  intros Hp Hn. exists (fresh (dom (heap cli))). split.
  - apply not_elem_of_dom, is_fresh.
  - unfold create_subsection, replay. by rewrite Hp, Hn.
Qed.

Section Replay.

Variables (cli : PulpCli) (p l : loc) (s : Section) (n d : string).
Hypothesis Hp : heap cli !! p = Some s.
Hypothesis Hl : heap cli !! l = None.

Lemma replay_ne : p <> l.
Proof. intros ->. congruence. Qed.

Lemma replay_parent :
  heap (replay cli (Created p n d l)) !! p =
  Some (mkSection (name s) (description s) (subsections s ++ [(n, l)])).
Proof.
  unfold replay. rewrite Hp. simpl. apply lookup_insert_eq.
Qed.

Lemma replay_child :
  heap (replay cli (Created p n d l)) !! l = Some (mkSection n d []).
Proof.
  unfold replay. rewrite Hp. simpl.
  rewrite lookup_insert_ne by apply replay_ne. apply lookup_insert_eq.
Qed.

Lemma replay_other q :
  q <> p -> q <> l ->
  heap (replay cli (Created p n d l)) !! q = heap cli !! q.
Proof.
  intros H1 H2. unfold replay. rewrite Hp. simpl.
  by rewrite !lookup_insert_ne.
Qed.

Lemma replay_root :
  root_section (replay cli (Created p n d l)) = root_section cli.
Proof. unfold replay. by rewrite Hp. Qed.

Lemma replay_created :
  created (replay cli (Created p n d l)) = created cli ++ [Created p n d l].
Proof. unfold replay. by rewrite Hp. Qed.

Lemma replay_dom :
  dom (heap (replay cli (Created p n d l))) = {[l]} ∪ dom (heap cli).
Proof.
  unfold replay. rewrite Hp. simpl. rewrite !dom_insert_L.
  apply elem_of_dom_2 in Hp. apply set_eq. intros q.
  rewrite !elem_of_union, !elem_of_singleton. split; [|tauto].
  intros [->|H]; [by right|done].
Qed.

Lemma replay_extends : extends cli (replay cli (Created p n d l)).
Proof.
  repeat split.
  - apply replay_root.
  - rewrite replay_created. by apply prefix_app_r.
  - intros q sq Hq. destruct (decide (q = p)) as [->|Hqp].
    + rewrite replay_parent. eexists. split; [done|]. simpl.
      assert (sq = s) as -> by congruence.
      repeat split. by apply prefix_app_r.
    + rewrite replay_other; [by exists sq|done|]. intros ->. congruence.
  - intros q Hq [sq Hsq]. exists (Created p n d l).
    rewrite replay_created. split; [set_solver|]. simpl.
    destruct (decide (q = l)) as [->|Hql]; [done|].
    rewrite replay_other in Hsq; [congruence| |done]. intros ->. congruence.
Qed.

Lemma replay_wf : wf cli -> wf (replay cli (Created p n d l)).
Proof.
  intros [[sr Hr] Hk]. split.
  - rewrite replay_root. destruct replay_extends as (_ & _ & K & _).
    destruct (K _ _ Hr) as (s' & -> & _). by eexists.
  - assert (forall q, is_Some (heap cli !! q) ->
                      is_Some (heap (replay cli (Created p n d l)) !! q))
      as Hmono.
    { intros q [sq Hq]. destruct replay_extends as (_ & _ & K & _).
      destruct (K _ _ Hq) as (s' & -> & _). by eexists. }
    intros q sq k c Hq Hc.
    destruct (decide (q = p)) as [->|Hqp].
    + rewrite replay_parent in Hq. injection Hq as <-. simpl in Hc.
      apply elem_of_app in Hc as [Hc|Hc].
      * apply Hmono. apply (Hk _ _ _ _ Hp Hc).
      * apply list_elem_of_singleton in Hc. injection Hc as -> ->.
        rewrite replay_child. by eexists.
    + destruct (decide (q = l)) as [->|Hql].
      * rewrite replay_child in Hq. injection Hq as <-. simpl in Hc.
        by apply elem_of_nil in Hc.
      * rewrite replay_other in Hq by done. apply Hmono.
        apply (Hk _ _ _ _ Hq Hc).
Qed.

Lemma replay_unique_names :
  lookup_name n (subsections s) = None ->
  unique_names cli -> unique_names (replay cli (Created p n d l)).
Proof.
  intros Hn U q sq Hq.
  destruct (decide (q = p)) as [->|Hqp].
  - rewrite replay_parent in Hq. injection Hq as <-. simpl.
    rewrite fmap_app. simpl. apply NoDup_app. split; [by eapply U|].
    split; [|apply NoDup_singleton].
    intros x Hx Hx'. apply list_elem_of_singleton in Hx' as ->.
    by apply lookup_name_None in Hn.
  - destruct (decide (q = l)) as [->|Hql].
    + rewrite replay_child in Hq. injection Hq as <-. simpl. constructor.
    + rewrite replay_other in Hq by done. by eapply U.
Qed.

End Replay.

(** ** Running computations *)

Lemma bind_ok {A B} (m : M A) (k : A -> M B) cli a cli' :
  m cli = (Ok a, cli') -> bind m k cli = k a cli'.
Proof. unfold bind. by intros ->. Qed.

Lemma bind_raise {A B} (m : M A) (k : A -> M B) cli e cli' :
  m cli = (Raise e, cli') -> bind m k cli = (Raise e, cli').
Proof. unfold bind. by intros ->. Qed.

(** ** The loop that creates children under one parent *)

Lemma for_each_create items : forall cli p s,
  heap cli !! p = Some s ->
  NoDup items.*1 ->
  (forall n, n ∈ items.*1 -> lookup_name n (subsections s) = None) ->
  exists ls,
    length ls = length items /\
    NoDup ls /\
    Forall (fun l => heap cli !! l = None) ls /\
    let cli' := replay_all cli (loop_events p items ls) in
    for_each items
      (fun '(name, description) =>
         create_subsection (Some p) name description ;;; ret tt) cli
      = (Ok tt, cli') /\
    heap cli' !! p =
      Some (mkSection (name s) (description s)
                      (subsections s ++ zip items.*1 ls)) /\
    (forall i item l, items !! i = Some item -> ls !! i = Some l ->
       heap cli' !! l = Some (mkSection item.1 item.2 [])) /\
    (forall q, q <> p -> q ∉ ls -> heap cli' !! q = heap cli !! q) /\
    extends cli cli' /\
    created cli' = created cli ++ loop_events p items ls /\
    (wf cli -> wf cli') /\
    (unique_names cli -> unique_names cli').
Proof.
  induction items as [|[n d] items IH]; intros cli p s Hp ND Hnew.
  - exists []. simpl.
    split; [done|]. split; [constructor|]. split; [constructor|].
    split; [done|]. split; [by rewrite Hp, app_nil_r; destruct s|].
    split; [by intros [|i]|]. split; [done|].
    split; [apply extends_refl|]. by rewrite app_nil_r.
  - simpl in ND. apply NoDup_cons in ND as [Hn ND].
    destruct (create_subsection_ok cli p s n d Hp) as (l & Hl & Hcreate).
    { apply Hnew. simpl. left. }
    set (cli1 := replay cli (Created p n d l)) in *.
    pose proof (replay_parent cli p l s n d Hp) as Hp1.
    pose proof (replay_child cli p l s n d Hp Hl) as Hl1.
    pose proof (replay_other cli p l s n d Hp) as Hother.
    fold cli1 in Hp1, Hl1, Hother.
    destruct (IH cli1 p _ Hp1 ND) as
      (ls & Hlen & NDls & Hfresh & Hrun & Hpar & Hkids & Hframe & Hext &
       Hlog & Hwf & Huniq).
    { intros n' Hn'. simpl. rewrite lookup_name_app, Hnew by (simpl; by right).
      simpl. destruct (String.eqb n n') eqn:E; [|done].
      apply String.eqb_eq in E as ->. done. }
    assert (l ∉ ls) as Hlls.
    { intros Hin. rewrite Forall_forall in Hfresh.
      specialize (Hfresh _ Hin). congruence. }
    exists (l :: ls). split; [simpl; by rewrite Hlen|].
    split; [by constructor|]. split.
    { constructor; [done|]. rewrite Forall_forall in Hfresh |- *.
      intros q Hq. rewrite <- Hother; [by apply Hfresh| |].
      - intros ->. specialize (Hfresh _ Hq). congruence.
      - intros ->. done. }
    change (replay_all cli (loop_events p ((n, d) :: items) (l :: ls)))
      with (replay_all cli1 (loop_events p items ls)).
    cbv zeta. split.
    { change (for_each ((n, d) :: items) ?f) with
        ((create_subsection (Some p) n d ;;; ret tt) ;;; for_each items f).
      rewrite (bind_ok _ _ _ tt cli1); [done|].
      by rewrite (bind_ok _ _ _ _ _ Hcreate). }
    split.
    { rewrite Hpar. cbn [name description subsections].
      by rewrite <- app_assoc. }
    split.
    { intros [|i] item q Hi Hq; simpl in Hi, Hq.
      - injection Hi as <-. injection Hq as <-.
        rewrite Hframe; [done| |done]. intros ->. congruence.
      - by eapply Hkids. }
    split.
    { intros q Hqp Hq. apply not_elem_of_cons in Hq as [Hql Hq].
      rewrite Hframe by done. by apply Hother. }
    split.
    { eapply extends_trans; [|exact Hext].
      apply (replay_extends _ _ _ _ _ _ Hp Hl). }
    split.
    { rewrite Hlog. unfold cli1. rewrite (replay_created _ _ _ _ _ _ Hp).
      by rewrite <- app_assoc. }
    split.
    { intros W. apply Hwf. by apply (replay_wf _ _ _ _ _ _ Hp Hl). }
    { intros U. apply Huniq. apply (replay_unique_names _ _ _ _ _ _ Hp Hl).
      - apply Hnew. simpl. left.
      - done. }
Qed.

Lemma extends_find_section c c' n x :
  extends c c' ->
  find_section n c = (Ok (Some x), c) ->
  find_section n c' = (Ok (Some x), c').
Proof.
  intros E H. unfold find_section in *. destruct E as (R & E).
  rewrite R. apply (extends_find c c'); [by split|done].
Qed.

Lemma extends_is_Some c c' l :
  extends c c' -> is_Some (heap c !! l) -> is_Some (heap c' !! l).
Proof.
  intros (_ & _ & K & _) [s H]. destruct (K _ _ H) as (s' & -> & _).
  by eexists.
Qed.

Lemma extends_fresh c c' l :
  extends c c' -> heap c' !! l = None -> heap c !! l = None.
Proof.
  intros E H. destruct (heap c !! l) as [s|] eqn:Hs; [|done].
  destruct (extends_is_Some c c' l E) as [s' Hs']; [by eexists|congruence].
Qed.

Lemma extends_name c c' l s :
  extends c c' -> heap c !! l = Some s ->
  exists s', heap c' !! l = Some s' /\ name s' = name s /\
             description s' = description s.
Proof.
  intros (_ & _ & K & _) H. destruct (K _ _ H) as (s' & ? & ? & ? & _).
  by exists s'.
Qed.

Lemma stored_ne c a b :
  is_Some (heap c !! a) -> heap c !! b = None -> a <> b.
Proof. intros [s H] H' ->. congruence. Qed.

(** ** Walking a path *)

Lemma find_subsection_stored cli l s n :
  heap cli !! l = Some s ->
  find_subsection (Some l) n cli = (Ok (lookup_name n (subsections s)), cli).
Proof. intros H. unfold find_subsection. by rewrite H. Qed.

Lemma find_subsection_state cli self n o cli' :
  find_subsection self n cli = (o, cli') -> cli' = cli.
Proof.
  unfold find_subsection. destruct self as [l|]; [|by intros [= _ <-]].
  destruct (heap cli !! l); by intros [= _ <-].
Qed.

Lemma walk_cons cli section p path v :
  find_subsection section p cli = (Ok v, cli) ->
  walk section (p :: path) cli = walk v path cli.
Proof. intros H. simpl. by rewrite (bind_ok _ _ _ _ _ H). Qed.

Lemma walk_None cli p path :
  walk None (p :: path) cli = (Raise AttributeError, cli).
Proof. done. Qed.

(** A walk never changes the CLI. *)
Lemma walk_state path : forall section cli o cli',
  walk section path cli = (o, cli') -> cli' = cli.
Proof.
  induction path as [|p path IH]; intros section cli o cli'; simpl.
  - by intros [= _ <-].
  - unfold bind. destruct (find_subsection section p cli) as [[v|e] c] eqn:F.
    + apply find_subsection_state in F as ->. apply IH.
    + apply find_subsection_state in F as ->. by intros [= _ <-].
Qed.

Lemma walk_app path path' : forall section cli v,
  walk section path cli = (Ok v, cli) ->
  walk section (path ++ path') cli = walk v path' cli.
Proof.
  induction path as [|p path IH]; intros section cli v; simpl.
  - by intros [= ->].
  - unfold bind. destruct (find_subsection section p cli) as [[w|e] c] eqn:F.
    + pose proof (find_subsection_state _ _ _ _ _ F) as ->. apply IH.
    + by intros [= _].
Qed.

Lemma _find_section_cons cli p path v :
  find_section p cli = (Ok v, cli) ->
  _find_section (p :: path) cli = walk v path cli.
Proof. intros H. by apply (walk_cons cli (Some (root_section cli))). Qed.

Lemma walk_nil cli section : walk section [] cli = (Ok section, cli).
Proof. done. Qed.

Lemma _find_section_walk path cli :
  _find_section path cli = walk (Some (root_section cli)) path cli.
Proof. done. Qed.

Lemma accessor_section_Repo : accessor_section Repo = repo_section.
Proof. done. Qed.

Lemma accessor_section_path a :
  accessor_section a = _find_section (accessor_path a).
Proof. by destruct a. Qed.

(** ** [ensure_root] *)

Lemma ensure_root_found cli s m :
  heap cli !! root_section cli = Some s ->
  lookup_name SECTION_ROOT (subsections s) = Some m ->
  ensure_root cli = (Ok (Some m), cli).
Proof.
  intros Hr Hm. unfold ensure_root, find_section.
  rewrite (bind_ok _ _ _ (Some m) cli); [done|].
  by rewrite (find_subsection_stored _ _ _ _ Hr), Hm.
Qed.

Lemma ensure_root_created cli s :
  heap cli !! root_section cli = Some s ->
  lookup_name SECTION_ROOT (subsections s) = None ->
  exists m,
    heap cli !! m = None /\
    ensure_root cli =
      (Ok (Some m),
       replay cli (Created (root_section cli) SECTION_ROOT DESC_ROOT m)).
Proof.
  intros Hr Hm.
  destruct (create_subsection_ok cli _ s SECTION_ROOT DESC_ROOT Hr Hm)
    as (m & Hfresh & Hc).
  exists m. split; [done|]. unfold ensure_root, find_section.
  rewrite (bind_ok _ _ _ (@None loc) cli); [exact Hc|].
  by rewrite (find_subsection_stored _ _ _ _ Hr), Hm.
Qed.

(** On a well-formed CLI [ensure_root] returns a section [m]; afterwards
    [m] is stored and is what the root has under the name [rpm]. *)
Lemma ensure_root_spec cli :
  wf cli ->
  exists m cli1,
    ensure_root cli = (Ok (Some m), cli1) /\
    find_section SECTION_ROOT cli1 = (Ok (Some m), cli1) /\
    is_Some (heap cli1 !! m) /\
    extends cli cli1 /\ wf cli1 /\
    (unique_names cli -> unique_names cli1) /\
    (find_section SECTION_ROOT cli = (Ok (Some m), cli) /\ cli1 = cli \/
     find_section SECTION_ROOT cli = (Ok None, cli) /\
     heap cli !! m = None /\
     cli1 = replay cli (Created (root_section cli) SECTION_ROOT DESC_ROOT m)).
Proof.
  intros W. pose proof W as [[s Hr] Hk].
  pose proof (find_subsection_stored cli _ s SECTION_ROOT Hr) as Hfind.
  destruct (lookup_name SECTION_ROOT (subsections s)) as [m|] eqn:Hm.
  - exists m, cli. split; [by eapply ensure_root_found|].
    split; [done|]. split.
    { apply lookup_name_Some in Hm. eapply Hk; eauto. }
    split; [apply extends_refl|]. split; [done|]. split; [done|]. by left.
  - destruct (ensure_root_created cli s Hr Hm) as (m & Hfresh & He).
    exists m,
      (replay cli (Created (root_section cli) SECTION_ROOT DESC_ROOT m)).
    split; [done|].
    pose proof (replay_parent cli _ m s SECTION_ROOT DESC_ROOT Hr) as Hp.
    split.
    { unfold find_section.
      rewrite (replay_root cli _ m s SECTION_ROOT DESC_ROOT Hr).
      rewrite (find_subsection_stored _ _ _ _ Hp). simpl.
      rewrite lookup_name_app, Hm. simpl. done. }
    split.
    { rewrite (replay_child cli _ m s SECTION_ROOT DESC_ROOT Hr Hfresh).
      by eexists. }
    split; [by apply (replay_extends _ _ _ _ _ _ Hr Hfresh)|].
    split; [by apply (replay_wf _ _ _ _ _ _ Hr Hfresh)|].
    split; [by apply (replay_unique_names _ _ _ _ _ _ Hr Hfresh)|].
    right. done.
Qed.

(** ** The creation branch of [ensure_repo_structure] *)

Lemma direct_subsections_names :
  direct_subsections.*1 =
  ["copy"; "remove"; "content"; "uploads"; "sync"; "publish"; "export";
   "group"].
Proof. done. Qed.

Lemma direct_subsections_NoDup : NoDup direct_subsections.*1.
Proof.
  rewrite direct_subsections_names.
  apply (bool_decide_unpack _). by vm_compute.
Qed.

Lemma dom_chain (X : gset loc) r ks sch gex :
  {[gex]} ∪ ({[sch]} ∪ (list_to_set ks ∪ ({[r]} ∪ X))) =
  list_to_set (r :: ks ++ [sch; gex]) ∪ X.
Proof.
  rewrite list_to_set_cons, list_to_set_app_L. simpl.
  apply set_eq. intros q.
  rewrite !elem_of_union, !elem_of_singleton, elem_of_empty. tauto.
Qed.

(** The whole branch, step by step, from a state [cli1] in which the
    root has [m] under [rpm] and [m] has no child [repo]. *)
Lemma creation_branch cli1 m sm :
  find_section SECTION_ROOT cli1 = (Ok (Some m), cli1) ->
  heap cli1 !! m = Some sm ->
  lookup_name SECTION_REPO (subsections sm) = None ->
  exists nl,
    let evs := creation_events m nl in
    let cli2 := replay_all cli1 (take 1 evs) in
    let cli3 := replay_all cli1 (take 9 evs) in
    let cli4 := replay_all cli1 (take 10 evs) in
    let cli5 := replay_all cli1 evs in
    (NoDup (all_new nl) /\
     Forall (fun l => heap cli1 !! l = None) (all_new nl)) /\
    (create_subsection (Some m) SECTION_REPO DESC_REPO cli1
       = (Ok (Some (l_repo nl)), cli2) /\
     for_each direct_subsections
       (fun '(name, description) =>
          create_subsection (Some (l_repo nl)) name description ;;; ret tt)
       cli2 = (Ok tt, cli3) /\
     repo_sync_section cli3 = (Ok (Some (l_sync nl)), cli3) /\
     create_subsection (Some (l_sync nl))
       SECTION_SYNC_SCHEDULES DESC_SYNC_SCHEDULES cli3
       = (Ok (Some (l_schedules nl)), cli4) /\
     repo_group_section cli4 = (Ok (Some (l_group nl)), cli4) /\
     create_subsection (Some (l_group nl))
       SECTION_EXPORT DESC_GROUP_EXPORT cli4
       = (Ok (Some (l_group_export nl)), cli5)) /\
    (extends cli1 cli5 /\
     (wf cli1 -> wf cli5) /\
     (unique_names cli1 -> unique_names cli5) /\
     created cli5 = created cli1 ++ evs /\
     created cli3 = created cli1 ++ take 9 evs /\
     created cli4 = created cli1 ++ take 10 evs /\
     dom (heap cli5) = list_to_set (all_new nl) ∪ dom (heap cli1)) /\
    (forall a,
       accessor_section a cli5 = (Ok (Some (accessor_loc nl a)), cli5) /\
       exists s, heap cli5 !! accessor_loc nl a = Some s /\
                 name s = schema_name a /\
                 description s = schema_description a).
Proof.
  intros Hrpm Hm Hrepo.
  (* repo *)
  destruct (create_subsection_ok cli1 m sm SECTION_REPO DESC_REPO Hm Hrepo)
    as (r & Hr1 & Hc_repo).
  set (cli2 := replay cli1 (Created m SECTION_REPO DESC_REPO r)) in *.
  pose proof (replay_extends cli1 m r sm SECTION_REPO DESC_REPO Hm Hr1) as E12.
  pose proof (replay_child cli1 m r sm SECTION_REPO DESC_REPO Hm Hr1) as Hr2.
  pose proof (replay_parent cli1 m r sm SECTION_REPO DESC_REPO Hm) as Hm2.
  fold cli2 in E12, Hr2, Hm2.
  assert (find_subsection (Some m) SECTION_REPO cli2 = (Ok (Some r), cli2))
    as Frepo2.
  { rewrite (find_subsection_stored _ _ _ _ Hm2). simpl.
    by rewrite lookup_name_app, Hrepo. }
  (* the eight direct subsections *)
  destruct (for_each_create direct_subsections cli2 r _ Hr2
              direct_subsections_NoDup)
    as (ls & Hlen & NDls & Hfresh2 & Hloop & Hr3 & Hkids3 & Hframe3 & E23 &
        Hlog3 & Hwf3 & Huniq3); [done|].
  destruct ls as [|k1 [|k2 [|k3 [|k4 [|k5 [|k6 [|k7 [|k8 [|]]]]]]]]];
    try discriminate Hlen. clear Hlen.
  set (cli3 := replay_all cli2
                 (loop_events r direct_subsections
                              [k1; k2; k3; k4; k5; k6; k7; k8])) in *.
  cbv zeta in Hloop, Hr3, Hkids3, Hframe3, E23, Hlog3, Hwf3, Huniq3.
  fold cli3 in Hloop, Hr3, Hkids3, Hframe3, E23, Hlog3, Hwf3, Huniq3.
  pose proof (extends_trans _ _ _ E12 E23) as E13.
  pose proof (Hkids3 4%nat _ _ eq_refl eq_refl) as Hsync3.
  pose proof (Hkids3 7%nat _ _ eq_refl eq_refl) as Hgroup3.
  cbn [fst snd] in Hsync3, Hgroup3.
  assert (forall i item l,
            direct_subsections !! i = Some item ->
            [k1; k2; k3; k4; k5; k6; k7; k8] !! i = Some l ->
            find_subsection (Some r) item.1 cli3 = (Ok (Some l), cli3))
    as Fkids3.
  { intros i item l Hi Hl. rewrite (find_subsection_stored _ _ _ _ Hr3).
    do 8 (destruct i as [|i];
          [injection Hi as <-; injection Hl as <-; reflexivity|]).
    done. }
  pose proof (extends_find_section _ _ _ _ E13 Hrpm) as Frpm3.
  pose proof (extends_find _ _ _ _ _ E23 Frepo2) as Frepo3.
  assert (repo_sync_section cli3 = (Ok (Some k5), cli3)) as Wsync.
  { unfold repo_sync_section.
    rewrite (_find_section_cons _ _ _ _ Frpm3), (walk_cons _ _ _ _ _ Frepo3).
    rewrite (walk_cons _ _ _ _ _ (Fkids3 4%nat _ _ eq_refl eq_refl)).
    apply walk_nil. }
  (* schedules, under the section found for sync *)
  destruct (create_subsection_ok cli3 k5 _ SECTION_SYNC_SCHEDULES
              DESC_SYNC_SCHEDULES Hsync3 eq_refl)
    as (sch & Hsch3 & Hc_sch).
  set (cli4 := replay cli3
                 (Created k5 SECTION_SYNC_SCHEDULES DESC_SYNC_SCHEDULES sch))
    in *.
  pose proof (replay_extends cli3 k5 sch _ SECTION_SYNC_SCHEDULES
                DESC_SYNC_SCHEDULES Hsync3 Hsch3) as E34.
  pose proof (replay_child cli3 k5 sch _ SECTION_SYNC_SCHEDULES
                DESC_SYNC_SCHEDULES Hsync3 Hsch3) as Hsch4.
  pose proof (replay_parent cli3 k5 sch _ SECTION_SYNC_SCHEDULES
                DESC_SYNC_SCHEDULES Hsync3) as Hsync4.
  fold cli4 in E34, Hsch4, Hsync4.
  pose proof (extends_trans _ _ _ E13 E34) as E14.
  pose proof (extends_trans _ _ _ E23 E34) as E24.
  assert (repo_group_section cli4 = (Ok (Some k8), cli4)) as Wgroup.
  { unfold repo_group_section.
    rewrite (_find_section_cons _ _ _ _
               (extends_find_section _ _ _ _ E14 Hrpm)).
    rewrite (walk_cons _ _ _ _ _ (extends_find _ _ _ _ _ E24 Frepo2)).
    rewrite (walk_cons _ _ _ _ _
               (extends_find _ _ _ _ _ E34
                  (Fkids3 7%nat _ _ eq_refl eq_refl))).
    apply walk_nil. }
  (* export, under the section found for group *)
  assert (heap cli4 !! k8 =
          Some (mkSection SECTION_GROUP DESC_GROUP [])) as Hgroup4.
  { rewrite <- Hgroup3. apply (replay_other cli3 k5 sch _ _ _ Hsync3).
    - intros ->. apply NoDup_ListNoDup in NDls.
      do 4 (apply List.NoDup_cons_iff in NDls as [_ NDls]).
      apply List.NoDup_cons_iff in NDls as [NDls _]. apply NDls.
      simpl. tauto.
    - apply (stored_ne cli3); [by eexists|done]. }
  destruct (create_subsection_ok cli4 k8 _ SECTION_EXPORT
              DESC_GROUP_EXPORT Hgroup4 eq_refl)
    as (gex & Hgex4 & Hc_gex).
  set (cli5 := replay cli4
                 (Created k8 SECTION_EXPORT DESC_GROUP_EXPORT gex)) in *.
  pose proof (replay_extends cli4 k8 gex _ SECTION_EXPORT
                DESC_GROUP_EXPORT Hgroup4 Hgex4) as E45.
  pose proof (replay_child cli4 k8 gex _ SECTION_EXPORT
                DESC_GROUP_EXPORT Hgroup4 Hgex4) as Hgex5.
  pose proof (replay_parent cli4 k8 gex _ SECTION_EXPORT
                DESC_GROUP_EXPORT Hgroup4) as Hgroup5.
  fold cli5 in E45, Hgex5, Hgroup5.
  pose proof (extends_trans _ _ _ E14 E45) as E15.
  pose proof (extends_trans _ _ _ E24 E45) as E25.
  pose proof (extends_trans _ _ _ E34 E45) as E35.
  (* every direct subsection is stored from [cli3] on *)
  assert (forall x, x ∈ [k1; k2; k3; k4; k5; k6; k7; k8] ->
                    is_Some (heap cli3 !! x)) as Sk3.
  { intros x Hx. apply list_elem_of_lookup in Hx as [i Hi].
    destruct (direct_subsections !! i) as [item|] eqn:Hitem.
    - rewrite (Hkids3 _ _ _ Hitem Hi). by eexists.
    - apply lookup_ge_None in Hitem. apply lookup_lt_Some in Hi.
      simpl in Hitem, Hi. lia. }
  assert (is_Some (heap cli2 !! r)) as Sr2 by (by eexists).
  pose proof (extends_is_Some _ _ r E23 Sr2) as Sr3.
  set (nl := mkNew r k1 k2 k3 k4 k5 k6 k7 k8 sch gex).
  assert (replay_all cli1 (take 1 (creation_events m nl)) = cli2) as X2.
  { unfold nl. cbn [take creation_events l_repo].
    by rewrite replay_all_cons, replay_all_nil. }
  assert (replay_all cli1 (take 9 (creation_events m nl)) = cli3) as X3.
  { unfold cli3, nl, loop_events.
    cbn [take creation_events zip_with direct_subsections fst snd l_repo
      l_copy l_remove l_content l_uploads l_sync l_publish l_export l_group].
    by rewrite !replay_all_cons, !replay_all_nil. }
  assert (replay_all cli1 (take 10 (creation_events m nl)) = cli4) as X4.
  { change (take 10 (creation_events m nl)) with
      (take 9 (creation_events m nl) ++
       [Created k5 SECTION_SYNC_SCHEDULES DESC_SYNC_SCHEDULES sch]).
    by rewrite replay_all_app, X3, replay_all_cons, replay_all_nil. }
  assert (replay_all cli1 (creation_events m nl) = cli5) as X5.
  { change (creation_events m nl) with
      (take 10 (creation_events m nl) ++
       [Created k8 SECTION_EXPORT DESC_GROUP_EXPORT gex]).
    by rewrite replay_all_app, X4, replay_all_cons, replay_all_nil. }
  exists nl. cbv zeta. rewrite X2, X3, X4, X5. clear X2 X3 X4 X5.
  unfold nl. clear nl.
  split; [|split; [|split]].
  - (* the new locations are distinct and were not stored *)
    unfold all_new, direct_locs. cbn [l_repo l_copy l_remove l_content
      l_uploads l_sync l_publish l_export l_group l_schedules
      l_group_export].
    rewrite Forall_forall in Hfresh2. split.
    + apply NoDup_cons. split.
      * intros Hin. apply elem_of_app in Hin as [Hin|Hin].
        -- specialize (Hfresh2 _ Hin). destruct Sr2. congruence.
        -- apply elem_of_cons in Hin as [->|Hin]; [destruct Sr3; congruence|].
           apply list_elem_of_singleton in Hin as ->.
           destruct (extends_is_Some _ _ gex E34 Sr3). congruence.
      * apply NoDup_app. split; [done|]. split.
        -- intros x Hx Hin. pose proof (Sk3 _ Hx) as Sx.
           apply elem_of_cons in Hin as [->|Hin]; [destruct Sx; congruence|].
           apply list_elem_of_singleton in Hin as ->.
           destruct (extends_is_Some _ _ gex E34 Sx). congruence.
        -- apply NoDup_cons. split; [|apply NoDup_singleton].
           rewrite list_elem_of_singleton. intros ->. congruence.
    + apply Forall_cons. split; [done|]. apply Forall_app. split.
      * apply Forall_forall. intros x Hx.
        apply (extends_fresh _ _ _ E12). by apply Hfresh2.
      * apply Forall_cons. split; [by apply (extends_fresh _ _ _ E13)|].
        apply Forall_cons. split; [by apply (extends_fresh _ _ _ E14)|].
        constructor.
  - (* the steps *)
    split; [exact Hc_repo|]. split; [exact Hloop|]. split; [exact Wsync|].
    split; [exact Hc_sch|]. split; [exact Wgroup|]. exact Hc_gex.
  - split; [exact E15|]. split; [|split; [|split; [|split; [|split]]]].
    + intros W. apply (replay_wf _ _ _ _ _ _ Hgroup4 Hgex4).
      apply (replay_wf _ _ _ _ _ _ Hsync3 Hsch3). apply Hwf3.
      by apply (replay_wf _ _ _ _ _ _ Hm Hr1).
    + intros U. apply (replay_unique_names _ _ _ _ _ _ Hgroup4 Hgex4 eq_refl).
      apply (replay_unique_names _ _ _ _ _ _ Hsync3 Hsch3 eq_refl).
      apply Huniq3. by apply (replay_unique_names _ _ _ _ _ _ Hm Hr1).
    + unfold cli5. rewrite (replay_created _ _ _ _ _ _ Hgroup4).
      unfold cli4. rewrite (replay_created _ _ _ _ _ _ Hsync3).
      rewrite Hlog3. unfold cli2. rewrite (replay_created _ _ _ _ _ _ Hm).
      by rewrite <- !app_assoc.
    + rewrite Hlog3. unfold cli2. rewrite (replay_created _ _ _ _ _ _ Hm).
      by rewrite <- !app_assoc.
    + unfold cli4. rewrite (replay_created _ _ _ _ _ _ Hsync3).
      rewrite Hlog3. unfold cli2. rewrite (replay_created _ _ _ _ _ _ Hm).
      by rewrite <- !app_assoc.
    + assert (dom (heap cli3) =
              list_to_set [k1; k2; k3; k4; k5; k6; k7; k8] ∪ dom (heap cli2))
        as D23.
      { apply set_eq. intros q.
        rewrite elem_of_union, elem_of_list_to_set, !elem_of_dom. split.
        - intros Hq.
          destruct (decide (q ∈ [k1; k2; k3; k4; k5; k6; k7; k8]));
            [by left|right].
          destruct (decide (q = r)) as [->|Hqr]; [exact Sr2|].
          by rewrite <- Hframe3.
        - intros [Hq|Hq]; [by apply Sk3|].
          apply (extends_is_Some _ _ _ E23 Hq). }
      unfold cli5. rewrite (replay_dom _ _ _ _ _ _ Hgroup4).
      unfold cli4. rewrite (replay_dom _ _ _ _ _ _ Hsync3), D23.
      unfold cli2. rewrite (replay_dom _ _ _ _ _ _ Hm).
      apply dom_chain.
  - (* what the accessors find in the final state *)
    pose proof (extends_find_section _ _ _ _ E15 Hrpm) as Frpm5.
    pose proof (extends_find _ _ _ _ _ E25 Frepo2) as Frepo5.
    assert (forall i item l,
              direct_subsections !! i = Some item ->
              [k1; k2; k3; k4; k5; k6; k7; k8] !! i = Some l ->
              find_subsection (Some r) item.1 cli5 = (Ok (Some l), cli5) /\
              exists s, heap cli5 !! l = Some s /\ name s = item.1 /\
                        description s = item.2) as Fkids5.
    { intros i item l Hi Hl. split.
      - apply (extends_find _ _ _ _ _ E35). by eapply Fkids3.
      - apply (extends_name _ _ _ _ E35 (Hkids3 _ _ _ Hi Hl)). }
    assert (find_subsection (Some k5) SECTION_SYNC_SCHEDULES cli5
            = (Ok (Some sch), cli5)) as Fsch5.
    { apply (extends_find _ _ _ _ _ E45).
      by rewrite (find_subsection_stored _ _ _ _ Hsync4). }
    assert (find_subsection (Some k8) SECTION_EXPORT cli5
            = (Ok (Some gex), cli5)) as Fgex5.
    { by rewrite (find_subsection_stored _ _ _ _ Hgroup5). }
    intros a. rewrite accessor_section_path.
    destruct a; cbn [accessor_path accessor_loc schema_name
      schema_description l_repo l_copy l_remove l_content l_uploads l_sync
      l_publish l_export l_group l_schedules l_group_export];
      rewrite (_find_section_cons _ _ _ _ Frpm5),
              (walk_cons _ _ _ _ _ Frepo5).
    + split; [apply walk_nil|]. apply (extends_name _ _ _ _ E25 Hr2).
    + destruct (Fkids5 0%nat _ _ eq_refl eq_refl) as [F N].
      rewrite (walk_cons _ _ _ _ _ F). split; [apply walk_nil|exact N].
    + destruct (Fkids5 1%nat _ _ eq_refl eq_refl) as [F N].
      rewrite (walk_cons _ _ _ _ _ F). split; [apply walk_nil|exact N].
    + destruct (Fkids5 3%nat _ _ eq_refl eq_refl) as [F N].
      rewrite (walk_cons _ _ _ _ _ F). split; [apply walk_nil|exact N].
    + destruct (Fkids5 2%nat _ _ eq_refl eq_refl) as [F N].
      rewrite (walk_cons _ _ _ _ _ F). split; [apply walk_nil|exact N].
    + destruct (Fkids5 4%nat _ _ eq_refl eq_refl) as [F N].
      rewrite (walk_cons _ _ _ _ _ F). split; [apply walk_nil|exact N].
    + destruct (Fkids5 4%nat _ _ eq_refl eq_refl) as [F N].
      rewrite (walk_cons _ _ _ _ _ F), (walk_cons _ _ _ _ _ Fsch5).
      split; [apply walk_nil|]. apply (extends_name _ _ _ _ E45 Hsch4).
    + destruct (Fkids5 5%nat _ _ eq_refl eq_refl) as [F N].
      rewrite (walk_cons _ _ _ _ _ F). split; [apply walk_nil|exact N].
    + destruct (Fkids5 6%nat _ _ eq_refl eq_refl) as [F N].
      rewrite (walk_cons _ _ _ _ _ F). split; [apply walk_nil|exact N].
    + destruct (Fkids5 7%nat _ _ eq_refl eq_refl) as [F N].
      rewrite (walk_cons _ _ _ _ _ F). split; [apply walk_nil|exact N].
    + destruct (Fkids5 7%nat _ _ eq_refl eq_refl) as [F N].
      rewrite (walk_cons _ _ _ _ _ F), (walk_cons _ _ _ _ _ Fgex5).
      split; [apply walk_nil|]. eexists. split; [exact Hgex5|done].
Qed.

(** ** [ensure_repo_structure] as a whole *)

(** What a successful [ensure_root] leaves behind, on any store. *)
Lemma ensure_root_inv cli m cli1 :
  ensure_root cli = (Ok (Some m), cli1) ->
  find_section SECTION_ROOT cli1 = (Ok (Some m), cli1) /\
  (find_section SECTION_ROOT cli = (Ok (Some m), cli) /\ cli1 = cli \/
   find_section SECTION_ROOT cli = (Ok None, cli) /\
   heap cli !! m = None /\
   cli1 = replay cli (Created (root_section cli) SECTION_ROOT DESC_ROOT m)).
Proof.
  intros H.
  destruct (heap cli !! root_section cli) as [s|] eqn:Hr.
  2: { unfold ensure_root, bind, find_section, find_subsection in H.
       by rewrite Hr in H. }
  pose proof (find_subsection_stored cli _ s SECTION_ROOT Hr) as Hf.
  destruct (lookup_name SECTION_ROOT (subsections s)) as [x|] eqn:Hx.
  - rewrite (ensure_root_found cli s x Hr Hx) in H. injection H as <- <-.
    split; [exact Hf|]. left. split; [exact Hf|done].
  - destruct (ensure_root_created cli s Hr Hx) as (m' & Hfresh & He).
    rewrite He in H. apply pair_equal_spec in H as [H1 H2].
    injection H1 as <-. subst cli1. split.
    + unfold find_section.
      rewrite (replay_root cli _ m' s SECTION_ROOT DESC_ROOT Hr).
      rewrite (find_subsection_stored _ _ _ _
                 (replay_parent cli _ m' s SECTION_ROOT DESC_ROOT Hr)).
      cbn [subsections]. rewrite lookup_name_app, Hx. done.
    + right. split; [exact Hf|done].
Qed.

(** The shortcut: with [repo] found under the section [ensure_root]
    returns, nothing else happens. *)
Lemma ensure_repo_structure_found cli m cli1 r :
  ensure_root cli = (Ok (Some m), cli1) ->
  find_subsection (Some m) SECTION_REPO cli1 = (Ok (Some r), cli1) ->
  ensure_repo_structure cli = (Ok (Some r), cli1).
Proof.
  intros H1 H2. unfold ensure_repo_structure.
  rewrite (bind_ok _ _ _ _ _ H1). by rewrite (bind_ok _ _ _ _ _ H2).
Qed.

(** The creation branch, run inside [ensure_repo_structure]. *)
Lemma ensure_repo_structure_creates cli m cli1 nl :
  let evs := creation_events m nl in
  let cli2 := replay_all cli1 (take 1 evs) in
  let cli3 := replay_all cli1 (take 9 evs) in
  let cli4 := replay_all cli1 (take 10 evs) in
  let cli5 := replay_all cli1 evs in
  ensure_root cli = (Ok (Some m), cli1) ->
  find_subsection (Some m) SECTION_REPO cli1 = (Ok None, cli1) ->
  (create_subsection (Some m) SECTION_REPO DESC_REPO cli1
     = (Ok (Some (l_repo nl)), cli2) /\
   for_each direct_subsections
     (fun '(name, description) =>
        create_subsection (Some (l_repo nl)) name description ;;; ret tt)
     cli2 = (Ok tt, cli3) /\
   repo_sync_section cli3 = (Ok (Some (l_sync nl)), cli3) /\
   create_subsection (Some (l_sync nl))
     SECTION_SYNC_SCHEDULES DESC_SYNC_SCHEDULES cli3
     = (Ok (Some (l_schedules nl)), cli4) /\
   repo_group_section cli4 = (Ok (Some (l_group nl)), cli4) /\
   create_subsection (Some (l_group nl))
     SECTION_EXPORT DESC_GROUP_EXPORT cli4
     = (Ok (Some (l_group_export nl)), cli5)) ->
  ensure_repo_structure cli = (Ok (Some (l_repo nl)), cli5).
Proof.
  intros evs cli2 cli3 cli4 cli5 H1 H2 (S1 & S2 & S3 & S4 & S5 & S6).
  unfold ensure_repo_structure.
  rewrite (bind_ok _ _ _ _ _ H1), (bind_ok _ _ _ _ _ H2).
  rewrite (bind_ok _ _ _ _ _ S1), (bind_ok _ _ _ _ _ S2).
  rewrite (bind_ok _ _ _ _ _ S3), (bind_ok _ _ _ _ _ S4).
  rewrite (bind_ok _ _ _ _ _ S5), (bind_ok _ _ _ _ _ S6).
  done.
Qed.

Lemma find_subsection_Ok cli l n v cli' :
  find_subsection (Some l) n cli = (Ok v, cli') ->
  exists s, heap cli !! l = Some s /\ lookup_name n (subsections s) = v.
Proof.
  unfold find_subsection. destruct (heap cli !! l) as [s|]; [|done].
  intros [= <- _]. by exists s.
Qed.

(** Every call on a well-formed CLI returns the [repo] section, which the
    accessor [repo_section] then finds. *)
Lemma ensure_repo_structure_spec cli :
  wf cli ->
  exists r cli',
    ensure_repo_structure cli = (Ok (Some r), cli') /\
    repo_section cli' = (Ok (Some r), cli') /\
    extends cli cli' /\ wf cli' /\
    (unique_names cli -> unique_names cli').
Proof.
  intros W.
  destruct (ensure_root_spec cli W)
    as (m & cli1 & Hroot & Hrpm & [sm Hm] & E01 & W1 & U1 & _).
  pose proof (find_subsection_stored cli1 m sm SECTION_REPO Hm) as Hfind.
  destruct (lookup_name SECTION_REPO (subsections sm)) as [r|] eqn:Hrepo.
  - exists r, cli1. split; [by eapply ensure_repo_structure_found|].
    split; [|done]. unfold repo_section.
    rewrite (_find_section_cons _ _ _ _ Hrpm), (walk_cons _ _ _ _ _ Hfind).
    apply walk_nil.
  - destruct (creation_branch cli1 m sm Hrpm Hm Hrepo)
      as (nl & _ & Hsteps & (E15 & W5 & U5 & _) & Hacc).
    pose proof (ensure_repo_structure_creates cli m cli1 nl Hroot Hfind
                  Hsteps) as Hrun.
    destruct (Hacc Repo) as [HR _]. rewrite accessor_section_Repo in HR.
    cbv zeta in Hrun.
    revert Hrun HR E15 W5 U5.
    generalize (replay_all cli1 (creation_events m nl)).
    intros cli5 Hrun HR E15 W5 U5.
    exists (l_repo nl), cli5.
    split; [exact Hrun|]. split; [exact HR|].
    split; [exact (extends_trans _ _ _ E01 E15)|].
    split; [exact (W5 W1)|]. intros U. exact (U5 (U1 U)).
Qed.

(** ** Computations only add sections *)

Lemma grows_ret {A} (a : A) : grows (ret a).
Proof. intros cli. apply extends_refl. Qed.

Lemma grows_bind {A B} (m : M A) (k : A -> M B) :
  grows m -> (forall a, grows (k a)) -> grows (bind m k).
Proof.
  intros Hm Hk cli. unfold bind. specialize (Hm cli).
  destruct (m cli) as [[a|e] cli']; simpl in *; [|done].
  eapply extends_trans; [exact Hm|apply Hk].
Qed.

Lemma grows_find_subsection self n : grows (find_subsection self n).
Proof.
  intros cli. destruct (find_subsection self n cli) as [o cli'] eqn:E.
  apply find_subsection_state in E as ->. apply extends_refl.
Qed.

Lemma grows_create_subsection self n d : grows (create_subsection self n d).
Proof.
  intros cli. destruct self as [p|]; [|apply extends_refl].
  destruct (heap cli !! p) as [s|] eqn:Hp.
  2: { unfold create_subsection. rewrite Hp. apply extends_refl. }
  destruct (lookup_name n (subsections s)) as [x|] eqn:Hn.
  { unfold create_subsection. rewrite Hp, Hn. apply extends_refl. }
  destruct (create_subsection_ok cli p s n d Hp Hn) as (l & Hl & ->).
  exact (replay_extends _ _ _ _ _ _ Hp Hl).
Qed.

Lemma grows_for_each {A} (xs : list A) (body : A -> M unit) :
  (forall x, grows (body x)) -> grows (for_each xs body).
Proof.
  intros Hb. induction xs as [|x xs IH]; simpl.
  - apply grows_ret.
  - apply grows_bind; [apply Hb|done].
Qed.

Lemma grows_walk path : forall section, grows (walk section path).
Proof.
  intros section cli. destruct (walk section path cli) as [o cli'] eqn:E.
  apply walk_state in E as ->. apply extends_refl.
Qed.

Lemma grows__find_section path : grows (_find_section path).
Proof. intros cli. apply (grows_walk path (Some (root_section cli))). Qed.

Lemma grows_accessor_section a : grows (accessor_section a).
Proof. rewrite accessor_section_path. apply grows__find_section. Qed.

Lemma grows_ensure_root : grows ensure_root.
Proof.
  apply grows_bind.
  - intros cli. apply grows_find_subsection.
  - intros [x|]; [apply grows_ret|]. intros cli.
    apply grows_create_subsection.
Qed.

Lemma grows_ensure_repo_structure : grows ensure_repo_structure.
Proof.
  apply grows_bind; [apply grows_ensure_root|]. intros root.
  apply grows_bind; [apply grows_find_subsection|].
  intros [r|]; [apply grows_ret|].
  apply grows_bind; [apply grows_create_subsection|]. intros repo.
  apply grows_bind.
  { apply grows_for_each. intros [n d].
    apply grows_bind; [apply grows_create_subsection|].
    intros _. apply grows_ret. }
  intros _. apply grows_bind; [apply grows_accessor_section with (a := Sync)|].
  intros sync. apply grows_bind; [apply grows_create_subsection|].
  intros _. apply grows_bind; [apply grows_accessor_section with (a := Group)|].
  intros group. apply grows_bind; [apply grows_create_subsection|].
  intros _. apply grows_ret.
Qed.

Lemma grows_run o : grows (run o).
Proof.
  destruct o; [apply grows_ensure_root|apply grows_ensure_repo_structure|
               apply grows_accessor_section].
Qed.

(** An accessor leaves the CLI as it found it. *)
Lemma accessor_section_state a cli : (accessor_section a cli).2 = cli.
Proof.
  rewrite accessor_section_path.
  destruct (_find_section (accessor_path a) cli) as [o cli'] eqn:E.
  rewrite _find_section_walk in E. by apply walk_state in E.
Qed.

(** A walk raises nothing but [AttributeError], unless the store has a
    dangling reference. *)
Lemma walk_Raise path : forall section cli e cli',
  walk section path cli = (Raise e, cli') ->
  e = AttributeError \/ e = DanglingReference.
Proof.
  induction path as [|p path IH]; intros section cli e cli'; simpl; [done|].
  unfold bind.
  destruct (find_subsection section p cli) as [[v|e'] c] eqn:F.
  - apply IH.
  - intros [= <- _]. unfold find_subsection in F.
    destruct section as [l|]; [|injection F as <-; by left].
    destruct (heap cli !! l); [done|]. injection F as <-. by right.
Qed.

(** ** The behaviour of [ensure_repo_structure], case by case *)

(** With [rpm.repo] in place the call is the shortcut. *)
Lemma ensure_repo_structure_shortcut cli r :
  repo_section cli = (Ok (Some r), cli) ->
  ensure_repo_structure cli = (Ok (Some r), cli).
Proof.
  intros H. unfold repo_section in H. rewrite _find_section_walk in H.
  simpl in H. unfold bind in H.
  destruct (find_subsection (Some (root_section cli)) SECTION_ROOT cli)
    as [[v|e] c] eqn:F1; [|done].
  pose proof (find_subsection_state _ _ _ _ _ F1) as ->.
  destruct (find_subsection v SECTION_REPO cli) as [[w|e] c] eqn:F2; [|done].
  pose proof (find_subsection_state _ _ _ _ _ F2) as ->.
  injection H as ->. destruct v as [m|]; [|done].
  apply (ensure_repo_structure_found cli m cli r); [|exact F2].
  destruct (find_subsection_Ok _ _ _ _ _ F1) as (s & Hs & Hm).
  by apply (ensure_root_found cli s m).
Qed.

(** Without [repo] under the section that [ensure_root] returned, the
    call runs the creation branch; the states it goes through are named
    [cli2] (after [repo]), [cli3] (after the loop), [cli4] (after
    [schedules]) and [cli5] (final). *)
Lemma ensure_repo_structure_builds cli m cli1 :
  ensure_root cli = (Ok (Some m), cli1) ->
  find_subsection (Some m) SECTION_REPO cli1 = (Ok None, cli1) ->
  exists nl cli2 cli3 cli4 cli5,
    (cli2 = replay_all cli1 (take 1 (creation_events m nl)) /\
     cli3 = replay_all cli1 (take 9 (creation_events m nl)) /\
     cli4 = replay_all cli1 (take 10 (creation_events m nl)) /\
     cli5 = replay_all cli1 (creation_events m nl)) /\
    (NoDup (all_new nl) /\
     Forall (fun l => heap cli1 !! l = None) (all_new nl)) /\
    (create_subsection (Some m) SECTION_REPO DESC_REPO cli1
       = (Ok (Some (l_repo nl)), cli2) /\
     for_each direct_subsections
       (fun '(name, description) =>
          create_subsection (Some (l_repo nl)) name description ;;; ret tt)
       cli2 = (Ok tt, cli3) /\
     repo_sync_section cli3 = (Ok (Some (l_sync nl)), cli3) /\
     create_subsection (Some (l_sync nl))
       SECTION_SYNC_SCHEDULES DESC_SYNC_SCHEDULES cli3
       = (Ok (Some (l_schedules nl)), cli4) /\
     repo_group_section cli4 = (Ok (Some (l_group nl)), cli4) /\
     create_subsection (Some (l_group nl))
       SECTION_EXPORT DESC_GROUP_EXPORT cli4
       = (Ok (Some (l_group_export nl)), cli5)) /\
    ensure_repo_structure cli = (Ok (Some (l_repo nl)), cli5) /\
    (extends cli1 cli5 /\
     (wf cli1 -> wf cli5) /\
     (unique_names cli1 -> unique_names cli5) /\
     created cli5 = created cli1 ++ creation_events m nl /\
     created cli3 = created cli1 ++ take 9 (creation_events m nl) /\
     created cli4 = created cli1 ++ take 10 (creation_events m nl) /\
     dom (heap cli5) = list_to_set (all_new nl) ∪ dom (heap cli1)) /\
    (forall a,
       accessor_section a cli5 = (Ok (Some (accessor_loc nl a)), cli5) /\
       exists s, heap cli5 !! accessor_loc nl a = Some s /\
                 name s = schema_name a /\
                 description s = schema_description a).
Proof.
  intros Hroot Hfind.
  destruct (ensure_root_inv _ _ _ Hroot) as [Hrpm _].
  destruct (find_subsection_Ok _ _ _ _ _ Hfind) as (sm & Hm & Hrepo).
  destruct (creation_branch cli1 m sm Hrpm Hm Hrepo)
    as (nl & Hnew & Hsteps & Hpost & Hacc).
  pose proof (ensure_repo_structure_creates cli m cli1 nl Hroot Hfind Hsteps)
    as Hrun.
  exists nl. do 4 eexists.
  split; [repeat split; reflexivity|].
  split; [exact Hnew|]. split; [exact Hsteps|]. split; [exact Hrun|].
  split; [exact Hpost|exact Hacc].
Qed.

(** * The claims *)

(** C1 (amended).  For every CLI state and every accessor: when the
    segments before [p] of the accessor's path resolve to a section [l]
    and [l] has no child named [p], the accessor returns the absence
    marker [None] without raising if [p] is the last segment of the path,
    and raises [AttributeError] if segments remain after [p] (the next
    lookup is made on [None]); the CLI is unchanged either way. *)
Theorem accessor_first_miss a pre p rest l cli :
  accessor_path a = pre ++ p :: rest ->
  _find_section pre cli = (Ok (Some l), cli) ->
  find_subsection (Some l) p cli = (Ok None, cli) ->
  accessor_section a cli =
    (match rest with
     | [] => Ok None
     | _ :: _ => Raise AttributeError
     end, cli).
Proof.
  intros Hpath Hpre Hmiss.
  rewrite accessor_section_path, Hpath, _find_section_walk.
  rewrite _find_section_walk in Hpre.
  rewrite (walk_app _ _ _ _ _ Hpre), (walk_cons _ _ _ _ _ Hmiss).
  destruct rest as [|q rest]; [apply walk_nil|apply walk_None].
Qed.

(** C2.  For every CLI state in which the section [rpm.repo] exists,
    whatever its subsections, [ensure_repo_structure] returns that
    section and leaves the CLI exactly as it was: same store, nothing
    created. *)
Theorem ensure_repo_structure_trusts_existing_repo cli r :
  repo_section cli = (Ok (Some r), cli) ->
  ensure_repo_structure cli = (Ok (Some r), cli).
Proof. apply ensure_repo_structure_shortcut. Qed.

(** C3.  [ensure_repo_structure] is idempotent: on every (well-formed)
    CLI state the first call returns a section [r] and leaves a state
    [cli'] on which a second call returns the same [r], raises nothing
    and leaves [cli'] unchanged, so that nothing is created twice. *)
Theorem ensure_repo_structure_idempotent cli :
  wf cli ->
  exists r cli',
    ensure_repo_structure cli = (Ok (Some r), cli') /\
    ensure_repo_structure cli' = (Ok (Some r), cli').
Proof.
  intros W.
  destruct (ensure_repo_structure_spec cli W) as (r & cli' & H1 & H2 & _).
  exists r, cli'. split; [done|]. by apply ensure_repo_structure_shortcut.
Qed.

(** C4.  On every fresh CLI (the root section is stored and has no
    subsection), after [ensure_repo_structure] each accessor returns a
    present section whose name and description are those of the schema
    for its path; and every nonempty prefix of the accessor's path
    resolves to a section named by the last segment of the prefix, so the
    section is reached through the chain its path spells. *)
Theorem accessors_after_ensure_on_fresh_cli cli s :
  heap cli !! root_section cli = Some s ->
  subsections s = [] ->
  exists r cli',
    ensure_repo_structure cli = (Ok (Some r), cli') /\
    (forall a,
       exists l sec,
         accessor_section a cli' = (Ok (Some l), cli') /\
         heap cli' !! l = Some sec /\
         name sec = schema_name a /\
         description sec = schema_description a) /\
    (forall a pre,
       pre <> [] -> pre `prefix_of` accessor_path a ->
       exists l sec,
         _find_section pre cli' = (Ok (Some l), cli') /\
         heap cli' !! l = Some sec /\
         Some (name sec) = last pre).
Proof.
  intros Hr Hempty.
  destruct (ensure_root_created cli s Hr) as (m & Hfresh & Hroot).
  { by rewrite Hempty. }
  pose proof (replay_child cli _ m s SECTION_ROOT DESC_ROOT Hr Hfresh) as Hm.
  revert Hroot Hm.
  generalize (replay cli (Created (root_section cli) SECTION_ROOT DESC_ROOT m)).
  intros cli1 Hroot Hm.
  destruct (ensure_repo_structure_builds cli m cli1 Hroot)
    as (nl & cli2 & cli3 & cli4 & cli5 & _ & _ & _ & Hrun & (E15 & _) & Hacc).
  { by rewrite (find_subsection_stored _ _ _ _ Hm). }
  assert (forall a, exists l sec,
            accessor_section a cli5 = (Ok (Some l), cli5) /\
            heap cli5 !! l = Some sec /\
            name sec = schema_name a /\
            description sec = schema_description a) as Hall.
  { intros a. destruct (Hacc a) as (F & sec & Hsec & Hn & Hd).
    by exists (accessor_loc nl a), sec. }
  assert (forall a, exists l sec,
            _find_section (accessor_path a) cli5 = (Ok (Some l), cli5) /\
            heap cli5 !! l = Some sec /\
            Some (name sec) = last (accessor_path a)) as Hpaths.
  { intros a. destruct (Hall a) as (l & sec & F & Hsec & Hn & _).
    exists l, sec. rewrite <- accessor_section_path. split; [done|].
    split; [done|]. rewrite Hn. by destruct a. }
  assert (exists l sec,
            _find_section [SECTION_ROOT] cli5 = (Ok (Some l), cli5) /\
            heap cli5 !! l = Some sec /\
            Some (name sec) = last [SECTION_ROOT]) as Hrpm.
  { destruct (ensure_root_inv _ _ _ Hroot) as [F _].
    destruct (extends_name _ _ _ _ E15 Hm) as (sec & Hsec & Hn & _).
    exists m, sec.
    rewrite (_find_section_cons _ _ _ _ (extends_find_section _ _ _ _ E15 F)).
    split; [apply walk_nil|]. split; [done|]. by rewrite Hn. }
  exists (l_repo nl), cli5. split; [done|]. split; [done|].
  intros a pre Hne [k Hk].
  destruct pre as [|p1 [|p2 [|p3 [|p4 [|p5 pre]]]]]; [done|..];
    destruct a; simplify_eq/=;
    first [ exact Hrpm
          | exact (Hpaths Repo)
          | exact (Hpaths Copy) | exact (Hpaths Remove)
          | exact (Hpaths Uploads) | exact (Hpaths Contents)
          | exact (Hpaths Sync) | exact (Hpaths SyncSchedules)
          | exact (Hpaths Publish) | exact (Hpaths Export)
          | exact (Hpaths Group) | exact (Hpaths GroupExport) ].
Qed.

(** C5.  When [ensure_repo_structure] finds no child [repo] under the
    section [m] that [ensure_root] returned, it returns a new section
    [repo]; the creations it makes are, in this order, [repo] under [m],
    then [copy], [remove], [content], [uploads], [sync], [publish],
    [export], [group] under [repo], each with its description, then
    [schedules] under [sync] and [export] under [group]; the final state
    is the state after [ensure_root] with exactly these eleven creations
    replayed, and the sections it stores beyond those stored before are
    exactly the eleven new ones, all distinct. *)
Theorem ensure_repo_structure_creation_order cli m cli1 :
  ensure_root cli = (Ok (Some m), cli1) ->
  find_subsection (Some m) SECTION_REPO cli1 = (Ok None, cli1) ->
  exists nl cli',
    ensure_repo_structure cli = (Ok (Some (l_repo nl)), cli') /\
    created cli' = created cli1 ++
      [ Created m "repo" DESC_REPO (l_repo nl);
        Created (l_repo nl) "copy" DESC_COPY (l_copy nl);
        Created (l_repo nl) "remove" DESC_REMOVE (l_remove nl);
        Created (l_repo nl) "content" DESC_CONTENTS (l_content nl);
        Created (l_repo nl) "uploads" DESC_UPLOADS (l_uploads nl);
        Created (l_repo nl) "sync" DESC_SYNC (l_sync nl);
        Created (l_repo nl) "publish" DESC_PUBLISH (l_publish nl);
        Created (l_repo nl) "export" DESC_EXPORT (l_export nl);
        Created (l_repo nl) "group" DESC_GROUP (l_group nl);
        Created (l_sync nl) "schedules" DESC_SYNC_SCHEDULES (l_schedules nl);
        Created (l_group nl) "export" DESC_GROUP_EXPORT (l_group_export nl) ]
    /\
    cli' = replay_all cli1 (creation_events m nl) /\
    NoDup (all_new nl) /\
    Forall (fun l => heap cli1 !! l = None) (all_new nl) /\
    dom (heap cli') = list_to_set (all_new nl) ∪ dom (heap cli1).
Proof.
  intros Hroot Hfind.
  destruct (ensure_repo_structure_builds cli m cli1 Hroot Hfind)
    as (nl & cli2 & cli3 & cli4 & cli5 & (_ & _ & _ & E5) & (ND & Hfresh) & _ &
        Hrun & (_ & _ & _ & Hlog & _ & _ & Hdom) & _).
  exists nl, cli5. split; [exact Hrun|]. split; [exact Hlog|].
  split; [exact E5|]. split; [exact ND|]. split; [exact Hfresh|exact Hdom].
Qed.

(** C6.  [ensure_root] looks up the top-level section [rpm]: when it is
    there it is returned and the CLI is unchanged; when it is absent it is
    created by [create_section] with the root description and returned.
    Either way the returned section is the one the CLI then has under
    [rpm], and a second call returns the same section and leaves the CLI
    unchanged, creating nothing. *)
Theorem ensure_root_correct_and_idempotent cli :
  is_Some (heap cli !! root_section cli) ->
  exists m cli1,
    ensure_root cli = (Ok (Some m), cli1) /\
    (find_section SECTION_ROOT cli = (Ok (Some m), cli) /\ cli1 = cli \/
     find_section SECTION_ROOT cli = (Ok None, cli) /\
     heap cli !! m = None /\
     create_section SECTION_ROOT DESC_ROOT cli = (Ok (Some m), cli1) /\
     heap cli1 !! m = Some (mkSection SECTION_ROOT DESC_ROOT [])) /\
    find_section SECTION_ROOT cli1 = (Ok (Some m), cli1) /\
    ensure_root cli1 = (Ok (Some m), cli1).
Proof.
  intros [s Hr].
  pose proof (find_subsection_stored cli _ s SECTION_ROOT Hr) as Hf.
  destruct (lookup_name SECTION_ROOT (subsections s)) as [m|] eqn:Hm.
  - pose proof (ensure_root_found cli s m Hr Hm) as He.
    exists m, cli. split; [done|]. split; [by left|]. by split.
  - destruct (create_subsection_ok cli _ s SECTION_ROOT DESC_ROOT Hr Hm)
      as (m & Hfresh & Hc).
    pose proof (replay_child cli _ m s SECTION_ROOT DESC_ROOT Hr Hfresh)
      as Hchild.
    assert (ensure_root cli =
            (Ok (Some m),
             replay cli (Created (root_section cli) SECTION_ROOT DESC_ROOT m)))
      as He.
    { unfold ensure_root.
      rewrite (bind_ok _ _ _ (@None loc) cli); [exact Hc|exact Hf]. }
    destruct (ensure_root_inv _ _ _ He) as [Hf1 _].
    change (create_subsection (Some (root_section cli)) SECTION_ROOT
              DESC_ROOT cli)
      with (create_section SECTION_ROOT DESC_ROOT cli) in Hc.
    revert He Hchild Hc Hf1.
    generalize
      (replay cli (Created (root_section cli) SECTION_ROOT DESC_ROOT m)).
    intros cli1 He Hchild Hc Hf1.
    exists m, cli1. split; [done|]. split; [right; by repeat split|].
    split; [done|].
    destruct (find_subsection_Ok _ _ _ _ _ Hf1) as (s1 & Hs1 & Hm1).
    by apply (ensure_root_found cli1 s1 m).
Qed.

(** C7.  Every accessor is read-only: on every CLI state it is the walk
    of its fixed path from the root section, and the CLI it leaves is the
    CLI it was given, store and creations alike, whether it returns a
    section, returns the absence marker or raises. *)
Theorem accessor_read_only a cli :
  accessor_section a cli =
    walk (Some (root_section cli)) (accessor_path a) cli /\
  (accessor_section a cli).2 = cli.
Proof.
  split; [by rewrite accessor_section_path|apply accessor_section_state].
Qed.

(** C8.  No operation removes or alters a section: for every CLI state
    and every operation, the state after the call extends the state
    before it (every stored section is still stored with the same name
    and description and its former children first; every section stored
    only afterwards was made by a recorded creation), and an accessor
    leaves the state unchanged, so only [ensure_root] and
    [ensure_repo_structure] ever make a section present. *)
Theorem operations_never_remove o cli :
  extends cli (run o cli).2 /\
  (forall a, o = Access a -> (run o cli).2 = cli).
Proof.
  split; [apply grows_run|]. intros a ->. apply accessor_section_state.
Qed.

(** One operation on a well-formed CLI: the CLI stays well-formed,
    unique sibling names stay unique, and no creation under a name the
    parent already has is attempted. *)
Lemma run_preserves o cli :
  wf cli ->
  wf (run o cli).2 /\
  (unique_names cli -> unique_names (run o cli).2) /\
  (run o cli).1 <> Raise UnspecifiedCreation.
Proof.
  intros W. destruct o as [| |a]; simpl.
  - destruct (ensure_root_spec cli W)
      as (m & cli1 & -> & _ & _ & _ & W1 & U1 & _).
    simpl. split; [exact W1|]. split; [exact U1|]. discriminate.
  - destruct (ensure_repo_structure_spec cli W)
      as (r & cli' & -> & _ & _ & W' & U').
    simpl. split; [exact W'|]. split; [exact U'|]. discriminate.
  - rewrite accessor_section_state. split; [done|]. split; [done|].
    rewrite accessor_section_path, _find_section_walk.
    destruct (walk (Some (root_section cli)) (accessor_path a) cli)
      as [[v|e] c] eqn:E; simpl; [done|].
    intros [= ->]. by destruct (walk_Raise _ _ _ _ _ E).
Qed.

(** C9.  Sibling-name uniqueness is preserved: starting from every
    well-formed CLI state in which the children of every section have
    distinct names, after every sequence of operations of the module the
    state is again such a state, and no operation run from it reaches a
    creation under a name its parent already has (the model's
    [UnspecifiedCreation]). *)
Theorem sibling_names_stay_unique cli ops :
  wf cli ->
  unique_names cli ->
  wf (run_all ops cli) /\
  unique_names (run_all ops cli) /\
  forall o, (run o (run_all ops cli)).1 <> Raise UnspecifiedCreation.
Proof.
  revert cli. induction ops as [|o ops IH]; intros cli W U.
  - split; [done|]. split; [done|]. intros o. by apply run_preserves.
  - destruct (run_preserves o cli W) as (W' & U' & _).
    apply (IH (run o cli).2 W' (U' U)).
Qed.

(** C10.  In the creation branch of [ensure_repo_structure] (no [repo]
    under the section [m] that [ensure_root] returned), with the top-level
    [find_section] and [create_section] of the CLI acting on
    [cli.root_section] as the model has them: after [repo] and its eight
    direct subsections are created, [repo_sync_section] returns a section,
    not [None], and it is the section the loop created under the name
    [sync] (not stored before, recorded as created under [repo]); the
    creation of [schedules] under it succeeds; then [repo_group_section]
    returns the section the loop created under the name [group], and the
    creation of [export] under it succeeds; the call returns [repo]. *)
Theorem creation_branch_lookups_resolve cli m cli1 :
  ensure_root cli = (Ok (Some m), cli1) ->
  find_subsection (Some m) SECTION_REPO cli1 = (Ok None, cli1) ->
  exists nl cli2 cli3 cli4 cli5,
    create_subsection (Some m) SECTION_REPO DESC_REPO cli1
      = (Ok (Some (l_repo nl)), cli2) /\
    for_each direct_subsections
      (fun '(name, description) =>
         create_subsection (Some (l_repo nl)) name description ;;; ret tt)
      cli2 = (Ok tt, cli3) /\
    (heap cli1 !! l_sync nl = None /\
     Created (l_repo nl) SECTION_SYNC DESC_SYNC (l_sync nl) ∈ created cli3 /\
     repo_sync_section cli3 = (Ok (Some (l_sync nl)), cli3)) /\
    create_subsection (Some (l_sync nl))
      SECTION_SYNC_SCHEDULES DESC_SYNC_SCHEDULES cli3
      = (Ok (Some (l_schedules nl)), cli4) /\
    (heap cli1 !! l_group nl = None /\
     Created (l_repo nl) SECTION_GROUP DESC_GROUP (l_group nl)
       ∈ created cli4 /\
     repo_group_section cli4 = (Ok (Some (l_group nl)), cli4)) /\
    create_subsection (Some (l_group nl))
      SECTION_EXPORT DESC_GROUP_EXPORT cli4
      = (Ok (Some (l_group_export nl)), cli5) /\
    ensure_repo_structure cli = (Ok (Some (l_repo nl)), cli5).
Proof.
  intros Hroot Hfind.
  destruct (ensure_repo_structure_builds cli m cli1 Hroot Hfind)
    as (nl & cli2 & cli3 & cli4 & cli5 & _ & (_ & Hfresh) &
        (S1 & S2 & S3 & S4 & S5 & S6) & Hrun &
        (_ & _ & _ & _ & Hlog3 & Hlog4 & _) & _).
  rewrite Forall_forall in Hfresh.
  exists nl, cli2, cli3, cli4, cli5.
  split; [exact S1|]. split; [exact S2|]. split.
  { split; [|split; [|exact S3]].
    - apply Hfresh. unfold all_new, direct_locs. set_solver.
    - rewrite Hlog3. cbn [take creation_events]. set_solver. }
  split; [exact S4|]. split.
  { split; [|split; [|exact S5]].
    - apply Hfresh. unfold all_new, direct_locs. set_solver.
    - rewrite Hlog4. cbn [take creation_events]. set_solver. }
  split; [exact S6|exact Hrun].
Qed.

(** * Further properties of the module *)

(** ** The monad laws the walks need *)

Lemma bind_assoc {A B C} (m : M A) (k : A -> M B) (h : B -> M C) cli :
  bind (bind m k) h cli = bind m (fun a => bind (k a) h) cli.
Proof. unfold bind. by destruct (m cli) as [[a|e] c]. Qed.

Lemma bind_ret_r {A} (m : M A) cli : bind m ret cli = m cli.
Proof. unfold bind, ret. by destruct (m cli) as [[a|e] c]. Qed.

Lemma bind_ext {A B} (m : M A) (k k' : A -> M B) cli :
  (forall a c, k a c = k' a c) -> bind m k cli = bind m k' cli.
Proof. intros H. unfold bind. by destruct (m cli) as [[a|e] c]. Qed.

(** One more segment at the end of a path is one more lookup on what the
    path resolves to. *)
Lemma walk_snoc path p : forall section cli,
  walk section (path ++ [p]) cli =
  bind (walk section path) (fun v => find_subsection v p) cli.
Proof.
  induction path as [|q path IH]; intros section cli.
  - simpl. by rewrite bind_ret_r.
  - simpl. rewrite bind_assoc. apply bind_ext. intros v c. apply IH.
Qed.

Lemma accessor_path_parent a :
  accessor_path a =
  match accessor_parent a with
  | Some b => accessor_path b ++ [schema_name a]
  | None => [SECTION_ROOT] ++ [schema_name a]
  end.
Proof. by destruct a. Qed.

(** X1.  Each accessor is its parent accessor followed by one
    [find_subsection] on the parent's result, raising what the parent
    raises and raising [AttributeError] when the parent returns [None]:
    [repo_sync_schedules_section] continues [repo_sync_section],
    [repo_group_export_section] continues [repo_group_section], the eight
    accessors for the direct subsections continue [repo_section], and
    [repo_section] continues the top-level lookup of [rpm]. *)
Theorem accessor_continues_parent a cli :
  accessor_section a cli =
  match accessor_parent a with
  | Some b =>
      (section <- accessor_section b ;;
       find_subsection section (schema_name a)) cli
  | None =>
      (section <- find_section SECTION_ROOT ;;
       find_subsection section (schema_name a)) cli
  end.
Proof.
  rewrite accessor_section_path, accessor_path_parent.
  destruct (accessor_parent a) as [b|].
  - rewrite accessor_section_path, !_find_section_walk. apply walk_snoc.
  - rewrite _find_section_walk, walk_snoc. unfold bind.
    change (walk (Some (root_section cli)) [SECTION_ROOT] cli)
      with (bind (find_subsection (Some (root_section cli)) SECTION_ROOT)
                 ret cli).
    by rewrite bind_ret_r.
Qed.

(** ** Lookups are stable under the operations *)

Lemma extends_walk path : forall c c' l x,
  extends c c' ->
  walk (Some l) path c = (Ok (Some x), c) ->
  walk (Some l) path c' = (Ok (Some x), c').
Proof.
  induction path as [|p path IH]; intros c c' l x E.
  - rewrite !walk_nil. by intros [= ->].
  - intros H.
    destruct (find_subsection (Some l) p c) as [[v|e] c0] eqn:F.
    2: { simpl in H. unfold bind in H. by rewrite F in H. }
    pose proof (find_subsection_state _ _ _ _ _ F) as ->.
    rewrite (walk_cons _ _ _ _ _ F) in H.
    destruct v as [y|].
    + rewrite (walk_cons _ _ _ _ _ (extends_find _ _ _ _ _ E F)).
      by apply (IH c).
    + destruct path; [by rewrite walk_nil in H|by rewrite walk_None in H].
Qed.

Lemma run_all_extends ops : forall cli, extends cli (run_all ops cli).
Proof.
  induction ops as [|o ops IH]; intros cli; [apply extends_refl|].
  eapply extends_trans; [apply (grows_run o cli)|apply IH].
Qed.

(** X2.  A lookup that has succeeded keeps succeeding: when
    [_find_section] resolves a path to a section, it resolves the same
    path to the same section after every sequence of operations of the
    module, whatever they return or raise. *)
Theorem resolved_path_stays_resolved ops path l cli :
  _find_section path cli = (Ok (Some l), cli) ->
  _find_section path (run_all ops cli) = (Ok (Some l), run_all ops cli).
Proof.
  intros H. pose proof (run_all_extends ops cli) as E.
  rewrite _find_section_walk in *.
  destruct E as (R & E'). rewrite R.
  apply (extends_walk path cli); [by split|done].
Qed.

(** ** What [ensure_repo_structure] returns *)

Lemma wf_walk path : forall cli l x,
  wf cli ->
  is_Some (heap cli !! l) ->
  walk (Some l) path cli = (Ok (Some x), cli) ->
  is_Some (heap cli !! x).
Proof.
  induction path as [|p path IH]; intros cli l x W Hl.
  - rewrite walk_nil. by intros [= <-].
  - intros H.
    destruct (find_subsection (Some l) p cli) as [[v|e] c0] eqn:F.
    2: { simpl in H. unfold bind in H. by rewrite F in H. }
    pose proof (find_subsection_state _ _ _ _ _ F) as ->.
    rewrite (walk_cons _ _ _ _ _ F) in H.
    destruct v as [y|].
    + apply (IH cli y); [done| |done].
      destruct (find_subsection_Ok _ _ _ _ _ F) as (s & Hs & Hy).
      destruct W as [_ Wk]. apply (Wk l s p y Hs).
      by apply lookup_name_Some.
    + destruct path; [by rewrite walk_nil in H|by rewrite walk_None in H].
Qed.

(** X3.  On every CLI without dangling references [ensure_repo_structure]
    raises nothing and never returns [None]: it returns a stored section,
    and that section is the one [repo_section] returns from then on. *)
Theorem ensure_repo_structure_returns_repo_section cli :
  wf cli ->
  exists r cli',
    ensure_repo_structure cli = (Ok (Some r), cli') /\
    is_Some (heap cli' !! r) /\
    repo_section cli' = (Ok (Some r), cli').
Proof.
  intros W.
  destruct (ensure_repo_structure_spec cli W)
    as (r & cli' & Hrun & Hrepo & _ & W' & _).
  exists r, cli'. split; [done|]. split; [|done].
  unfold repo_section in Hrepo. rewrite _find_section_walk in Hrepo.
  apply (wf_walk _ _ _ _ W' (proj1 W') Hrepo).
Qed.

(** ** How the two builders compose *)

Lemma ensure_root_Ok cli v cli1 :
  ensure_root cli = (Ok v, cli1) -> exists m, v = Some m.
Proof.
  unfold ensure_root, bind, find_section, create_section.
  destruct (find_subsection (Some (root_section cli)) SECTION_ROOT cli)
    as [[[m|]|e] c] eqn:F; [intros [= <- _]; by eexists| |done].
  unfold create_subsection.
  destruct (heap c !! root_section c) as [s|]; [|done].
  destruct (lookup_name SECTION_ROOT (subsections s)); [done|].
  intros [= <- _]. by eexists.
Qed.

(** X7.  [ensure_repo_structure] absorbs a preceding [ensure_root]:
    calling [ensure_root] and then [ensure_repo_structure] gives, on every
    CLI state, the result and the state of [ensure_repo_structure]
    alone. *)
Theorem ensure_root_then_ensure_repo_structure cli :
  (ensure_root ;;; ensure_repo_structure) cli = ensure_repo_structure cli.
Proof.
  destruct (ensure_root cli) as [[v|e] cli1] eqn:H1.
  2: { unfold ensure_repo_structure.
       by rewrite !(bind_raise _ _ _ _ _ H1). }
  destruct (ensure_root_Ok _ _ _ H1) as [m ->].
  rewrite (bind_ok _ _ _ _ _ H1).
  destruct (ensure_root_inv _ _ _ H1) as [F _].
  destruct (find_subsection_Ok _ _ _ _ _ F) as (s & Hs & Hm).
  pose proof (ensure_root_found cli1 s m Hs Hm) as H2.
  unfold ensure_repo_structure.
  by rewrite (bind_ok _ _ _ _ _ H1), (bind_ok _ _ _ _ _ H2).
Qed.

(** X8.  The shortcut does not protect the accessors: on a CLI that has
    [rpm.repo] but no [rpm.repo.sync], [ensure_repo_structure] changes
    nothing, after which [repo_sync_section] still returns [None] and
    [repo_sync_schedules_section] raises [AttributeError]. *)
Theorem partial_repo_is_not_repaired cli r :
  repo_section cli = (Ok (Some r), cli) ->
  find_subsection (Some r) SECTION_SYNC cli = (Ok None, cli) ->
  ensure_repo_structure cli = (Ok (Some r), cli) /\
  (ensure_repo_structure ;;; repo_sync_section) cli = (Ok None, cli) /\
  (ensure_repo_structure ;;; repo_sync_schedules_section) cli
    = (Raise AttributeError, cli).
Proof.
  intros Hrepo Hsync.
  pose proof (ensure_repo_structure_shortcut cli r Hrepo) as Hrun.
  split; [done|]. rewrite !(bind_ok _ _ _ _ _ Hrun).
  unfold repo_section in Hrepo. rewrite _find_section_walk in Hrepo.
  unfold repo_sync_section, repo_sync_schedules_section.
  rewrite !_find_section_walk. split.
  - change [SECTION_ROOT; SECTION_REPO; SECTION_SYNC]
      with ([SECTION_ROOT; SECTION_REPO] ++ [SECTION_SYNC]).
    rewrite (walk_app _ _ _ _ _ Hrepo).
    by rewrite (walk_cons _ _ _ _ _ Hsync).
  - change [SECTION_ROOT; SECTION_REPO; SECTION_SYNC; SECTION_SYNC_SCHEDULES]
      with ([SECTION_ROOT; SECTION_REPO] ++
            [SECTION_SYNC; SECTION_SYNC_SCHEDULES]).
    rewrite (walk_app _ _ _ _ _ Hrepo).
    by rewrite (walk_cons _ _ _ _ _ Hsync).
Qed.

(** ** The store after a list of creations *)

Lemma replay_is_Some cli e q :
  is_Some (heap cli !! q) -> is_Some (heap (replay cli e) !! q).
Proof.
  intros Hq. destruct e as [p n d l]. unfold replay.
  destruct (heap cli !! p) as [s|]; [|done]. simpl.
  destruct (decide (p = q)) as [->|Hp]; [rewrite lookup_insert_eq; by eexists|].
  rewrite lookup_insert_ne by done.
  destruct (decide (l = q)) as [->|Hl]; [rewrite lookup_insert_eq; by eexists|].
  by rewrite lookup_insert_ne.
Qed.

Lemma replay_all_is_Some evs : forall cli q,
  is_Some (heap cli !! q) -> is_Some (heap (replay_all cli evs) !! q).
Proof.
  induction evs as [|e evs IH]; intros cli q Hq; [done|].
  rewrite replay_all_cons. by apply IH, replay_is_Some.
Qed.

Lemma replay_frame cli e q :
  event_parent e <> q -> event_loc e <> q ->
  heap (replay cli e) !! q = heap cli !! q.
Proof.
  destruct e as [p n d l]. simpl. intros Hp Hl. unfold replay.
  destruct (heap cli !! p) as [s|]; [|done]. simpl.
  by rewrite !lookup_insert_ne.
Qed.

Lemma replay_all_frame evs : forall cli q,
  Forall (fun e => event_parent e <> q /\ event_loc e <> q) evs ->
  heap (replay_all cli evs) !! q = heap cli !! q.
Proof.
  induction evs as [|e evs IH]; intros cli q H; [done|].
  apply Forall_cons in H as [[Hp Hl] H].
  rewrite replay_all_cons, IH by done. by apply replay_frame.
Qed.

Lemma replay_stored cli e q s :
  heap cli !! q = Some s ->
  event_loc e <> q ->
  heap (replay cli e) !! q =
  Some (mkSection (name s) (description s)
                  (subsections s ++ children_added q [e])).
Proof.
  destruct e as [p n d l]. cbn [event_loc children_added]. intros Hq Hl.
  destruct (decide (p = q)) as [->|Hp].
  - unfold replay. rewrite Hq. cbn [heap]. by rewrite lookup_insert_eq.
  - rewrite replay_frame by done. rewrite Hq, app_nil_r. by destruct s.
Qed.

Lemma children_added_cons q e evs :
  children_added q (e :: evs) = children_added q [e] ++ children_added q evs.
Proof. destruct e as [p n d l]. simpl. by destruct (decide (p = q)). Qed.

(** A stored section that no creation is made at keeps its name and its
    description and gains, after its children, the children the
    creations add to it. *)
Lemma replay_all_stored evs : forall cli q s,
  heap cli !! q = Some s ->
  Forall (fun e => event_loc e <> q) evs ->
  heap (replay_all cli evs) !! q =
  Some (mkSection (name s) (description s)
                  (subsections s ++ children_added q evs)).
Proof.
  induction evs as [|e evs IH]; intros cli q s Hq H.
  - rewrite replay_all_nil, Hq. cbn [children_added].
    rewrite app_nil_r. by destruct s.
  - apply Forall_cons in H as [Hl H].
    rewrite replay_all_cons, (IH _ _ _ (replay_stored _ _ _ _ Hq Hl) H).
    cbn [name description subsections].
    by rewrite (children_added_cons q e evs), app_assoc.
Qed.

Lemma replay_created_child cli p n d l :
  is_Some (heap cli !! p) -> p <> l ->
  heap (replay cli (Created p n d l)) !! l = Some (mkSection n d []).
Proof.
  intros [s Hp] Hne. unfold replay. rewrite Hp. simpl.
  by rewrite lookup_insert_ne, lookup_insert_eq.
Qed.

(** A section created under a stored parent is stored from then on. *)
Lemma replay_all_created_is_Some evs1 p n d l evs2 cli :
  is_Some (heap (replay_all cli evs1) !! p) ->
  is_Some (heap (replay_all cli (evs1 ++ Created p n d l :: evs2)) !! l).
Proof.
  intros [s Hp]. rewrite replay_all_app, replay_all_cons.
  apply replay_all_is_Some. unfold replay. rewrite Hp. simpl.
  destruct (decide (p = l)) as [->|Hne].
  { rewrite lookup_insert_eq. by eexists. }
  rewrite lookup_insert_ne, lookup_insert_eq by done. by eexists.
Qed.

(** A section created under a stored parent, and at which no later
    creation is made, has in the end its name, its description and the
    children the later creations add to it. *)
Lemma replay_all_created evs1 p n d l evs2 cli :
  is_Some (heap (replay_all cli evs1) !! p) ->
  p <> l ->
  Forall (fun e => event_loc e <> l) evs2 ->
  heap (replay_all cli (evs1 ++ Created p n d l :: evs2)) !! l =
  Some (mkSection n d (children_added l evs2)).
Proof.
  intros Hp Hne H. rewrite replay_all_app, replay_all_cons.
  pose proof (replay_created_child _ _ n d _ Hp Hne) as Hl.
  by rewrite (replay_all_stored _ _ _ _ Hl H).
Qed.

Lemma replay_all_created_at evs evs1 p n d l evs2 cli kids :
  evs = evs1 ++ Created p n d l :: evs2 ->
  is_Some (heap (replay_all cli evs1) !! p) ->
  p <> l ->
  Forall (fun e => event_loc e <> l) evs2 ->
  children_added l evs2 = kids ->
  heap (replay_all cli evs) !! l = Some (mkSection n d kids).
Proof. intros -> Hp Hne H <-. by apply replay_all_created. Qed.

(** ** The store the creation branch leaves *)

Local Ltac ne := first [assumption | apply not_eq_sym; assumption].

Local Ltac decide_locs :=
  repeat first [ rewrite decide_True by reflexivity
               | rewrite decide_False by ne ].

Local Ltac no_later_creation :=
  repeat (apply Forall_cons; split; [cbn [event_loc]; ne|]);
  constructor.

(** The store after the eleven creations, section by section: [m] gains
    [repo] after its children; each new section has its schema name and
    description and exactly its schema children; every other location is
    as before. *)
Lemma creation_events_store cli1 m sm nl :
  heap cli1 !! m = Some sm ->
  NoDup (all_new nl) ->
  Forall (fun l => heap cli1 !! l = None) (all_new nl) ->
  heap (replay_all cli1 (creation_events m nl)) !! m =
    Some (mkSection (name sm) (description sm)
                    (subsections sm ++ [(SECTION_REPO, l_repo nl)])) /\
  (forall a,
     heap (replay_all cli1 (creation_events m nl)) !! accessor_loc nl a =
     Some (mkSection (schema_name a) (schema_description a)
                     (schema_children nl a))) /\
  (forall q, q <> m -> q ∉ all_new nl ->
     heap (replay_all cli1 (creation_events m nl)) !! q = heap cli1 !! q).
Proof.
  intros Hm ND HF. destruct nl as [r k1 k2 k3 k4 k5 k6 k7 k8 sch gex].
  unfold all_new, direct_locs in ND, HF |- *.
  cbn [l_repo l_copy l_remove l_content l_uploads l_sync l_publish l_export
       l_group l_schedules l_group_export app] in ND, HF |- *.
  assert (NoDup [m; r; k1; k2; k3; k4; k5; k6; k7; k8; sch; gex]) as NDm.
  { apply NoDup_cons. split; [|done]. intros Hin.
    rewrite Forall_forall in HF. specialize (HF _ Hin). congruence. }
  clear ND HF.
  repeat (apply NoDup_cons in NDm as [? NDm]). clear NDm.
  repeat match goal with
         | H : _ ∉ _ :: _ |- _ => apply not_elem_of_cons in H as [? ?]
         | H : _ ∉ [] |- _ => clear H
         end.
  unfold creation_events.
  cbn [l_repo l_copy l_remove l_content l_uploads l_sync l_publish l_export
       l_group l_schedules l_group_export].
  set (e0 := Created m SECTION_REPO DESC_REPO r).
  set (e1 := Created r SECTION_COPY DESC_COPY k1).
  set (e2 := Created r SECTION_REMOVE DESC_REMOVE k2).
  set (e3 := Created r SECTION_CONTENTS DESC_CONTENTS k3).
  set (e4 := Created r SECTION_UPLOADS DESC_UPLOADS k4).
  set (e5 := Created r SECTION_SYNC DESC_SYNC k5).
  set (e6 := Created r SECTION_PUBLISH DESC_PUBLISH k6).
  set (e7 := Created r SECTION_EXPORT DESC_EXPORT k7).
  set (e8 := Created r SECTION_GROUP DESC_GROUP k8).
  set (e9 := Created k5 SECTION_SYNC_SCHEDULES DESC_SYNC_SCHEDULES sch).
  set (e10 := Created k8 SECTION_EXPORT DESC_GROUP_EXPORT gex).
  assert (forall rest, is_Some (heap (replay_all cli1 (e0 :: rest)) !! r))
    as Sr.
  { intros rest.
    apply (replay_all_created_is_Some [] m SECTION_REPO DESC_REPO r rest cli1).
    rewrite replay_all_nil. by eexists. }
  assert (forall rest,
            is_Some (heap (replay_all cli1
                             (e0 :: e1 :: e2 :: e3 :: e4 :: e5 :: rest))
                     !! k5)) as Ssync.
  { intros rest.
    apply (replay_all_created_is_Some [e0; e1; e2; e3; e4]
             r SECTION_SYNC DESC_SYNC k5 rest cli1), Sr. }
  assert (forall rest,
            is_Some (heap (replay_all cli1
                             (e0 :: e1 :: e2 :: e3 :: e4 :: e5 :: e6 :: e7 ::
                              e8 :: rest))
                     !! k8)) as Sgroup.
  { intros rest.
    apply (replay_all_created_is_Some [e0; e1; e2; e3; e4; e5; e6; e7]
             r SECTION_GROUP DESC_GROUP k8 rest cli1), Sr. }
  split; [|split].
  - rewrite (replay_all_stored _ _ _ _ Hm).
    + subst e0 e1 e2 e3 e4 e5 e6 e7 e8 e9 e10. cbn [children_added].
      by decide_locs.
    + subst e0 e1 e2 e3 e4 e5 e6 e7 e8 e9 e10. no_later_creation.
  - intros a.
    destruct a;
      cbn [accessor_loc schema_name schema_description schema_children
           l_repo l_copy l_remove l_content l_uploads l_sync l_publish
           l_export l_group l_schedules l_group_export].
    + apply (replay_all_created_at _ []
               m SECTION_REPO DESC_REPO r
               [e1; e2; e3; e4; e5; e6; e7; e8; e9; e10]);
        [ reflexivity | rewrite replay_all_nil; by eexists | ne
        | subst e1 e2 e3 e4 e5 e6 e7 e8 e9 e10; no_later_creation
        | subst e1 e2 e3 e4 e5 e6 e7 e8 e9 e10; cbn [children_added];
          by decide_locs ].
    + apply (replay_all_created_at _ [e0]
               r SECTION_COPY DESC_COPY k1
               [e2; e3; e4; e5; e6; e7; e8; e9; e10]);
        [ reflexivity | apply Sr | ne
        | subst e1 e2 e3 e4 e5 e6 e7 e8 e9 e10; no_later_creation
        | subst e1 e2 e3 e4 e5 e6 e7 e8 e9 e10; cbn [children_added];
          by decide_locs ].
    + apply (replay_all_created_at _ [e0; e1]
               r SECTION_REMOVE DESC_REMOVE k2
               [e3; e4; e5; e6; e7; e8; e9; e10]);
        [ reflexivity | apply Sr | ne
        | subst e1 e2 e3 e4 e5 e6 e7 e8 e9 e10; no_later_creation
        | subst e1 e2 e3 e4 e5 e6 e7 e8 e9 e10; cbn [children_added];
          by decide_locs ].
    + apply (replay_all_created_at _ [e0; e1; e2; e3]
               r SECTION_UPLOADS DESC_UPLOADS k4
               [e5; e6; e7; e8; e9; e10]);
        [ reflexivity | apply Sr | ne
        | subst e1 e2 e3 e4 e5 e6 e7 e8 e9 e10; no_later_creation
        | subst e1 e2 e3 e4 e5 e6 e7 e8 e9 e10; cbn [children_added];
          by decide_locs ].
    + apply (replay_all_created_at _ [e0; e1; e2]
               r SECTION_CONTENTS DESC_CONTENTS k3
               [e4; e5; e6; e7; e8; e9; e10]);
        [ reflexivity | apply Sr | ne
        | subst e1 e2 e3 e4 e5 e6 e7 e8 e9 e10; no_later_creation
        | subst e1 e2 e3 e4 e5 e6 e7 e8 e9 e10; cbn [children_added];
          by decide_locs ].
    + apply (replay_all_created_at _ [e0; e1; e2; e3; e4]
               r SECTION_SYNC DESC_SYNC k5
               [e6; e7; e8; e9; e10]);
        [ reflexivity | apply Sr | ne
        | subst e1 e2 e3 e4 e5 e6 e7 e8 e9 e10; no_later_creation
        | subst e1 e2 e3 e4 e5 e6 e7 e8 e9 e10; cbn [children_added];
          by decide_locs ].
    + apply (replay_all_created_at _ [e0; e1; e2; e3; e4; e5; e6; e7; e8]
               k5 SECTION_SYNC_SCHEDULES DESC_SYNC_SCHEDULES sch
               [e10]);
        [ reflexivity | apply Ssync | ne
        | subst e1 e2 e3 e4 e5 e6 e7 e8 e9 e10; no_later_creation
        | subst e1 e2 e3 e4 e5 e6 e7 e8 e9 e10; cbn [children_added];
          by decide_locs ].
    + apply (replay_all_created_at _ [e0; e1; e2; e3; e4; e5]
               r SECTION_PUBLISH DESC_PUBLISH k6
               [e7; e8; e9; e10]);
        [ reflexivity | apply Sr | ne
        | subst e1 e2 e3 e4 e5 e6 e7 e8 e9 e10; no_later_creation
        | subst e1 e2 e3 e4 e5 e6 e7 e8 e9 e10; cbn [children_added];
          by decide_locs ].
    + apply (replay_all_created_at _ [e0; e1; e2; e3; e4; e5; e6]
               r SECTION_EXPORT DESC_EXPORT k7
               [e8; e9; e10]);
        [ reflexivity | apply Sr | ne
        | subst e1 e2 e3 e4 e5 e6 e7 e8 e9 e10; no_later_creation
        | subst e1 e2 e3 e4 e5 e6 e7 e8 e9 e10; cbn [children_added];
          by decide_locs ].
    + apply (replay_all_created_at _ [e0; e1; e2; e3; e4; e5; e6; e7]
               r SECTION_GROUP DESC_GROUP k8
               [e9; e10]);
        [ reflexivity | apply Sr | ne
        | subst e1 e2 e3 e4 e5 e6 e7 e8 e9 e10; no_later_creation
        | subst e1 e2 e3 e4 e5 e6 e7 e8 e9 e10; cbn [children_added];
          by decide_locs ].
    + apply (replay_all_created_at _ [e0; e1; e2; e3; e4; e5; e6; e7; e8; e9]
               k8 SECTION_EXPORT DESC_GROUP_EXPORT gex
               []);
        [ reflexivity | apply Sgroup | ne
        | subst e1 e2 e3 e4 e5 e6 e7 e8 e9 e10; no_later_creation
        | subst e1 e2 e3 e4 e5 e6 e7 e8 e9 e10; cbn [children_added];
          by decide_locs ].
  - intros q Hqm Hq.
    repeat (apply not_elem_of_cons in Hq as [? Hq]).
    apply replay_all_frame.
    subst e0 e1 e2 e3 e4 e5 e6 e7 e8 e9 e10.
    repeat (apply Forall_cons; split;
            [cbn [event_parent event_loc]; split; ne|]).
    constructor.
Qed.

(** X4.  When the creation branch runs (no [repo] under the section [m]
    that [ensure_root] returned), the store it leaves has exactly the
    schema's tree below [m]: each accessor returns a new section whose
    object has the schema's name and description and exactly the schema's
    children in the order of creation ([repo] has its eight subsections,
    [sync] has [schedules], [group] has [export], the other eight have
    none), and [m] keeps its children and gains [repo] as its last. *)
Theorem creation_branch_builds_schema cli m cli1 sm :
  ensure_root cli = (Ok (Some m), cli1) ->
  heap cli1 !! m = Some sm ->
  lookup_name SECTION_REPO (subsections sm) = None ->
  exists nl cli',
    ensure_repo_structure cli = (Ok (Some (l_repo nl)), cli') /\
    (forall a,
       accessor_section a cli' = (Ok (Some (accessor_loc nl a)), cli') /\
       heap cli' !! accessor_loc nl a =
         Some (mkSection (schema_name a) (schema_description a)
                         (schema_children nl a))) /\
    heap cli' !! m =
      Some (mkSection (name sm) (description sm)
                      (subsections sm ++ [(SECTION_REPO, l_repo nl)])).
Proof.
  intros Hroot Hm Hrepo.
  destruct (ensure_repo_structure_builds cli m cli1 Hroot)
    as (nl & cli2 & cli3 & cli4 & cli5 & (_ & _ & _ & E5) & (ND & Hfresh) & _ &
        Hrun & _ & Hacc).
  { by rewrite (find_subsection_stored _ _ _ _ Hm), Hrepo. }
  destruct (creation_events_store cli1 m sm nl Hm ND Hfresh)
    as (Hm5 & Hnew & _).
  rewrite <- E5 in Hm5, Hnew.
  exists nl, cli5. split; [exact Hrun|]. split; [|exact Hm5].
  intros a. destruct (Hacc a) as [F _]. split; [exact F|apply Hnew].
Qed.

Lemma all_new_lookup nl a :
  all_new nl !! accessor_index a = Some (accessor_loc nl a).
Proof. by destruct a. Qed.

Lemma accessor_index_inj a b : accessor_index a = accessor_index b -> a = b.
Proof. by destruct a, b. Qed.

Lemma accessor_loc_inj nl a b :
  NoDup (all_new nl) -> accessor_loc nl a = accessor_loc nl b -> a = b.
Proof.
  intros ND H. apply accessor_index_inj.
  apply (NoDup_lookup _ _ _ _ ND (all_new_lookup nl a)).
  rewrite H. apply all_new_lookup.
Qed.

(** X5.  After the creation branch two different accessors never return
    the same section: the eleven sections are pairwise distinct objects;
    in particular [repo_export_section] and [repo_group_export_section],
    both named [export], return different sections. *)
Theorem accessors_return_distinct_sections cli m cli1 :
  ensure_root cli = (Ok (Some m), cli1) ->
  find_subsection (Some m) SECTION_REPO cli1 = (Ok None, cli1) ->
  exists nl cli',
    ensure_repo_structure cli = (Ok (Some (l_repo nl)), cli') /\
    (forall a,
       accessor_section a cli' = (Ok (Some (accessor_loc nl a)), cli')) /\
    (forall a b, accessor_loc nl a = accessor_loc nl b -> a = b) /\
    l_export nl <> l_group_export nl.
Proof.
  intros Hroot Hfind.
  destruct (ensure_repo_structure_builds cli m cli1 Hroot Hfind)
    as (nl & cli2 & cli3 & cli4 & cli5 & _ & (ND & _) & _ & Hrun & _ & Hacc).
  exists nl, cli5. split; [exact Hrun|].
  split; [intros a; apply Hacc|]. split.
  - intros a b. by apply accessor_loc_inj.
  - intros H. by apply (accessor_loc_inj nl Export GroupExport ND) in H.
Qed.

(** X6.  How many sections a call of [ensure_repo_structure] creates, on
    every CLI without dangling references: none when [rpm.repo] is there,
    eleven when [rpm] is there without [repo], twelve when [rpm] is not
    there. *)
Theorem ensure_repo_structure_creation_count cli :
  wf cli ->
  exists r cli' evs,
    ensure_repo_structure cli = (Ok (Some r), cli') /\
    created cli' = created cli ++ evs /\
    length evs =
      match (find_section SECTION_ROOT cli).1 with
      | Ok (Some m) =>
          match (find_subsection (Some m) SECTION_REPO cli).1 with
          | Ok (Some _) => 0
          | _ => 11
          end
      | _ => 12
      end.
Proof.
  intros W.
  destruct (ensure_root_spec cli W)
    as (m & cli1 & Hroot & Hrpm & [sm Hm] & _ & _ & _ & Hcase).
  pose proof (find_subsection_stored cli1 m sm SECTION_REPO Hm) as Hfind.
  destruct Hcase as [[Hf ->]|(Hf & Hfresh & ->)]; rewrite Hf; cbn [fst].
  - rewrite Hfind. cbn [fst].
    destruct (lookup_name SECTION_REPO (subsections sm)) as [r|] eqn:Hrepo.
    + exists r, cli, []. rewrite app_nil_r.
      split; [by apply (ensure_repo_structure_found cli m cli r)|done].
    + destruct (ensure_repo_structure_builds cli m cli Hroot Hfind)
        as (nl & cli2 & cli3 & cli4 & cli5 & _ & _ & _ & Hrun &
            (_ & _ & _ & Hlog & _) & _).
      by exists (l_repo nl), cli5, (creation_events m nl).
  - destruct W as [[sr Hr] _].
    pose proof (replay_child cli _ m sr SECTION_ROOT DESC_ROOT Hr Hfresh)
      as Hchild.
    pose proof (replay_created cli _ m sr SECTION_ROOT DESC_ROOT Hr) as Hlog1.
    revert Hroot Hrpm Hm Hfind Hchild Hlog1.
    generalize
      (replay cli (Created (root_section cli) SECTION_ROOT DESC_ROOT m)).
    intros cli1 Hroot Hrpm Hm Hfind Hchild Hlog1.
    assert (sm = mkSection SECTION_ROOT DESC_ROOT []) as -> by congruence.
    destruct (ensure_repo_structure_builds cli m cli1 Hroot Hfind)
      as (nl & cli2 & cli3 & cli4 & cli5 & _ & _ & _ & Hrun &
          (_ & _ & _ & Hlog & _) & _).
    exists (l_repo nl), cli5,
      (Created (root_section cli) SECTION_ROOT DESC_ROOT m ::
       creation_events m nl).
    split; [done|]. split; [|done].
    by rewrite Hlog, Hlog1, <- app_assoc.
Qed.

(** X9.  [ensure_repo_structure] touches nothing outside its own tree: on
    every CLI without dangling references, every stored section other
    than the root and the section the root has under [rpm] is, after the
    call, exactly the object it was, children included. *)
Theorem ensure_repo_structure_frame cli :
  wf cli ->
  exists r cli',
    ensure_repo_structure cli = (Ok (Some r), cli') /\
    forall q s,
      heap cli !! q = Some s ->
      q <> root_section cli ->
      find_section SECTION_ROOT cli <> (Ok (Some q), cli) ->
      heap cli' !! q = Some s.
Proof.
  intros W.
  destruct (ensure_root_spec cli W)
    as (m & cli1 & Hroot & Hrpm & [sm Hm] & E01 & _ & _ & Hcase).
  assert (forall q s,
            heap cli !! q = Some s ->
            q <> root_section cli ->
            find_section SECTION_ROOT cli <> (Ok (Some q), cli) ->
            heap cli1 !! q = Some s /\ q <> m) as Hframe1.
  { intros q s Hq Hqr Hqm.
    destruct Hcase as [[Hf ->]|(Hf & Hfresh & ->)].
    - split; [done|]. intros ->. done.
    - assert (q <> m) as Hne by (intros ->; congruence).
      split; [|done]. destruct W as [[sr Hr] _].
      by rewrite (replay_other cli _ m sr SECTION_ROOT DESC_ROOT Hr). }
  clear Hcase.
  pose proof (find_subsection_stored cli1 m sm SECTION_REPO Hm) as Hfind.
  destruct (lookup_name SECTION_REPO (subsections sm)) as [r|] eqn:Hrepo.
  - exists r, cli1.
    split; [by apply (ensure_repo_structure_found cli m cli1 r)|].
    intros q s Hq Hqr Hqm. by apply Hframe1.
  - destruct (ensure_repo_structure_builds cli m cli1 Hroot Hfind)
      as (nl & cli2 & cli3 & cli4 & cli5 & (_ & _ & _ & E5) & (ND & Hfresh) &
          _ & Hrun & _).
    destruct (creation_events_store cli1 m sm nl Hm ND Hfresh)
      as (_ & _ & Hframe5).
    rewrite <- E5 in Hframe5.
    exists (l_repo nl), cli5. split; [exact Hrun|].
    intros q s Hq Hqr Hqm. destruct (Hframe1 q s Hq Hqr Hqm) as [Hq1 Hne].
    rewrite Hframe5; [done|done|]. intros Hin.
    rewrite Forall_forall in Hfresh. specialize (Hfresh _ Hin). congruence.
Qed.

(** X10.  [ensure_root] changes the store in at most two places: when
    [rpm] is found nothing changes; when it is absent the root keeps its
    name, description and children and gains [rpm] as its last child, the
    new section is stored with no children, and every other location is
    as before. *)
Theorem ensure_root_frame cli m cli1 :
  ensure_root cli = (Ok (Some m), cli1) ->
  exists s,
    heap cli !! root_section cli = Some s /\
    (lookup_name SECTION_ROOT (subsections s) = Some m /\ cli1 = cli \/
     lookup_name SECTION_ROOT (subsections s) = None /\
     heap cli !! m = None /\
     heap cli1 !! root_section cli =
       Some (mkSection (name s) (description s)
                       (subsections s ++ [(SECTION_ROOT, m)])) /\
     heap cli1 !! m = Some (mkSection SECTION_ROOT DESC_ROOT []) /\
     (forall q, q <> root_section cli -> q <> m ->
                heap cli1 !! q = heap cli !! q)).
Proof.
  intros H.
  destruct (ensure_root_inv _ _ _ H) as [_ Hcase].
  destruct Hcase as [[Hf ->]|(Hf & Hfresh & ->)];
    destruct (find_subsection_Ok _ _ _ _ _ Hf) as (s & Hs & Hl);
    exists s; (split; [done|]); [by left|right].
  split; [done|]. split; [done|].
  split; [apply (replay_parent _ _ _ _ _ _ Hs)|].
  split; [apply (replay_child _ _ _ _ _ _ Hs Hfresh)|].
  intros q Hq Hqm. by apply (replay_other _ _ _ _ _ _ Hs).
Qed.

(** ** What an accessor can return *)

Lemma wf_walk_outcomes path : forall cli l,
  wf cli ->
  is_Some (heap cli !! l) ->
  (exists x, walk (Some l) path cli = (Ok (Some x), cli) /\
             is_Some (heap cli !! x)) \/
  walk (Some l) path cli = (Ok None, cli) \/
  walk (Some l) path cli = (Raise AttributeError, cli).
Proof.
  induction path as [|p path IH]; intros cli l W [s Hl].
  - left. exists l. split; [apply walk_nil|by eexists].
  - pose proof (find_subsection_stored cli l s p Hl) as F.
    rewrite (walk_cons _ _ _ _ _ F).
    destruct (lookup_name p (subsections s)) as [y|] eqn:Hy.
    + apply IH; [done|]. destruct W as [_ Wk].
      apply (Wk l s p y Hl). by apply lookup_name_Some.
    + destruct path; [right; left; apply walk_nil|right; right; done].
Qed.

(** X11.  On every CLI without dangling references an accessor has one of
    three outcomes, and the CLI is unchanged in each: it returns a
    section, which is then a stored one; it returns [None]; or it raises
    [AttributeError].  It raises nothing else. *)
Theorem accessor_outcomes a cli :
  wf cli ->
  (exists l, accessor_section a cli = (Ok (Some l), cli) /\
             is_Some (heap cli !! l)) \/
  accessor_section a cli = (Ok None, cli) \/
  accessor_section a cli = (Raise AttributeError, cli).
Proof.
  intros W. rewrite accessor_section_path, _find_section_walk.
  apply wf_walk_outcomes; [done|apply W].
Qed.

(** X12.  Once [rpm.repo] exists, [ensure_repo_structure] is a no-op for
    good: after every sequence of operations of the module it returns that
    same section and leaves the CLI as it finds it. *)
Theorem ensure_repo_structure_settled ops cli r :
  repo_section cli = (Ok (Some r), cli) ->
  ensure_repo_structure (run_all ops cli)
    = (Ok (Some r), run_all ops cli).
Proof.
  intros H. apply ensure_repo_structure_shortcut.
  unfold repo_section in *. rewrite _find_section_walk in *.
  destruct (run_all_extends ops cli) as (R & E). rewrite R.
  apply (extends_walk _ cli); [by split|done].
Qed.

End Structure.

(** * The claims at concrete states

    The message catalog is taken empty: [gettext] returns its argument. *)

(** The whole run on a fresh CLI, evaluated: the store that results, and
    what the accessors then return. *)
Example ensure_repo_structure_on_fresh_cli :
  ensure_repo_structure (fun s => s) fresh_cli
    = (Ok (Some 3%positive), built_cli (fun s => s)).
Proof. vm_compute. reflexivity. Qed.

Example accessors_on_built_cli :
  map (fun a => (accessor_section a (built_cli (fun s => s))).1)
      all_accessors
  = [ Ok (Some 3%positive); Ok (Some 4%positive); Ok (Some 5%positive);
      Ok (Some 7%positive); Ok (Some 6%positive); Ok (Some 8%positive);
      Ok (Some 12%positive); Ok (Some 9%positive); Ok (Some 10%positive);
      Ok (Some 11%positive); Ok (Some 13%positive) ].
Proof. vm_compute. reflexivity. Qed.

(** On a CLI that has [rpm] only, the accessor for [repo] misses on its
    last segment and returns [None]; the others miss before their last
    segment and raise. *)
Example accessors_on_rpm_only_cli :
  map (fun a => (accessor_section a rpm_only_cli).1) all_accessors
  = Ok None :: repeat (Raise AttributeError) 10.
Proof. vm_compute. reflexivity. Qed.

(** C1, as claimed, fails on a fresh CLI: [rpm] is absent under the root,
    and every accessor raises [AttributeError] instead of returning the
    absence marker. *)
Lemma accessors_raise_on_fresh_cli :
  find_section SECTION_ROOT fresh_cli = (Ok None, fresh_cli) /\
  map (fun a => accessor_section a fresh_cli) all_accessors =
  repeat (Raise AttributeError, fresh_cli) 11.
Proof. split; reflexivity. Qed.

Lemma accessor_first_miss_witness :
  (accessor_path Repo = ["rpm"] ++ "repo" :: [] /\
   _find_section ["rpm"] rpm_only_cli = (Ok (Some 2%positive), rpm_only_cli) /\
   find_subsection (Some 2%positive) "repo" rpm_only_cli
     = (Ok None, rpm_only_cli)) /\
  accessor_section Repo rpm_only_cli = (Ok None, rpm_only_cli).
Proof.
  split; [repeat split; vm_compute; reflexivity|].
  apply (accessor_first_miss Repo ["rpm"] "repo" [] 2%positive rpm_only_cli);
    vm_compute; reflexivity.
Defined.

Lemma ensure_repo_structure_trusts_existing_repo_witness :
  repo_section partial_cli = (Ok (Some 3%positive), partial_cli) /\
  repo_publish_section partial_cli = (Ok None, partial_cli) /\
  ensure_repo_structure (fun s => s) partial_cli
    = (Ok (Some 3%positive), partial_cli).
Proof.
  split; [vm_compute; reflexivity|]. split; [vm_compute; reflexivity|].
  apply (ensure_repo_structure_trusts_existing_repo (fun s => s)).
  vm_compute; reflexivity.
Defined.

Lemma ensure_repo_structure_idempotent_witness :
  wf fresh_cli /\
  exists r cli',
    ensure_repo_structure (fun s => s) fresh_cli = (Ok (Some r), cli') /\
    ensure_repo_structure (fun s => s) cli' = (Ok (Some r), cli').
Proof.
  split; [apply wfb_sound; vm_compute; reflexivity|].
  apply (ensure_repo_structure_idempotent (fun s => s) fresh_cli).
  apply wfb_sound; vm_compute; reflexivity.
Defined.

Lemma accessors_after_ensure_on_fresh_cli_witness :
  (heap fresh_cli !! root_section fresh_cli = Some (mkSection "" "" []) /\
   subsections (mkSection "" "" []) = []) /\
  exists r cli',
    ensure_repo_structure (fun s => s) fresh_cli = (Ok (Some r), cli') /\
    (forall a,
       exists l sec,
         accessor_section a cli' = (Ok (Some l), cli') /\
         heap cli' !! l = Some sec /\
         name sec = schema_name a /\
         description sec = schema_description (fun s => s) a) /\
    (forall a pre,
       pre <> [] -> pre `prefix_of` accessor_path a ->
       exists l sec,
         _find_section pre cli' = (Ok (Some l), cli') /\
         heap cli' !! l = Some sec /\
         Some (name sec) = last pre).
Proof.
  split; [split; reflexivity|].
  apply (accessors_after_ensure_on_fresh_cli
           (fun s => s) fresh_cli (mkSection "" "" [])); reflexivity.
Defined.

Lemma ensure_repo_structure_creation_order_witness :
  (ensure_root (fun s => s) fresh_cli = (Ok (Some 2%positive), rpm_only_cli) /\
   find_subsection (Some 2%positive) SECTION_REPO rpm_only_cli
     = (Ok None, rpm_only_cli)) /\
  exists nl cli',
    ensure_repo_structure (fun s => s) fresh_cli
      = (Ok (Some (l_repo nl)), cli') /\
    created cli' = created rpm_only_cli ++
      creation_events (fun s => s) 2%positive nl /\
    cli' = replay_all rpm_only_cli
             (creation_events (fun s => s) 2%positive nl) /\
    NoDup (all_new nl) /\
    Forall (fun l => heap rpm_only_cli !! l = None) (all_new nl) /\
    dom (heap cli') = list_to_set (all_new nl) ∪ dom (heap rpm_only_cli).
Proof.
  split; [split; vm_compute; reflexivity|].
  apply (ensure_repo_structure_creation_order
           (fun s => s) fresh_cli 2%positive rpm_only_cli);
    vm_compute; reflexivity.
Defined.

Lemma ensure_root_correct_and_idempotent_witness :
  is_Some (heap fresh_cli !! root_section fresh_cli) /\
  exists m cli1,
    ensure_root (fun s => s) fresh_cli = (Ok (Some m), cli1) /\
    (find_section SECTION_ROOT fresh_cli = (Ok (Some m), fresh_cli) /\
     cli1 = fresh_cli \/
     find_section SECTION_ROOT fresh_cli = (Ok None, fresh_cli) /\
     heap fresh_cli !! m = None /\
     create_section SECTION_ROOT (DESC_ROOT (fun s => s)) fresh_cli
       = (Ok (Some m), cli1) /\
     heap cli1 !! m =
       Some (mkSection SECTION_ROOT (DESC_ROOT (fun s => s)) [])) /\
    find_section SECTION_ROOT cli1 = (Ok (Some m), cli1) /\
    ensure_root (fun s => s) cli1 = (Ok (Some m), cli1).
Proof.
  split; [eexists; reflexivity|].
  apply (ensure_root_correct_and_idempotent (fun s => s) fresh_cli).
  eexists; reflexivity.
Defined.

Lemma sibling_names_stay_unique_witness :
  (wf fresh_cli /\ unique_names fresh_cli) /\
  let ops := [EnsureRepoStructure; Access SyncSchedules; EnsureRoot;
              EnsureRepoStructure] in
  wf (run_all (fun s => s) ops fresh_cli) /\
  unique_names (run_all (fun s => s) ops fresh_cli) /\
  forall o,
    (run (fun s => s) o (run_all (fun s => s) ops fresh_cli)).1
      <> Raise UnspecifiedCreation.
Proof.
  split.
  - split; [apply wfb_sound|apply unique_namesb_sound];
      vm_compute; reflexivity.
  - apply (sibling_names_stay_unique (fun s => s) fresh_cli).
    + apply wfb_sound; vm_compute; reflexivity.
    + apply unique_namesb_sound; vm_compute; reflexivity.
Defined.

Lemma creation_branch_lookups_resolve_witness :
  (ensure_root (fun s => s) fresh_cli = (Ok (Some 2%positive), rpm_only_cli) /\
   find_subsection (Some 2%positive) SECTION_REPO rpm_only_cli
     = (Ok None, rpm_only_cli)) /\
  exists nl cli2 cli3 cli4 cli5,
    create_subsection (Some 2%positive) SECTION_REPO
      (DESC_REPO (fun s => s)) rpm_only_cli
      = (Ok (Some (l_repo nl)), cli2) /\
    for_each (direct_subsections (fun s => s))
      (fun '(name, description) =>
         create_subsection (Some (l_repo nl)) name description ;;; ret tt)
      cli2 = (Ok tt, cli3) /\
    (heap rpm_only_cli !! l_sync nl = None /\
     Created (l_repo nl) SECTION_SYNC (DESC_SYNC (fun s => s)) (l_sync nl)
       ∈ created cli3 /\
     repo_sync_section cli3 = (Ok (Some (l_sync nl)), cli3)) /\
    create_subsection (Some (l_sync nl))
      SECTION_SYNC_SCHEDULES (DESC_SYNC_SCHEDULES (fun s => s)) cli3
      = (Ok (Some (l_schedules nl)), cli4) /\
    (heap rpm_only_cli !! l_group nl = None /\
     Created (l_repo nl) SECTION_GROUP (DESC_GROUP (fun s => s)) (l_group nl)
       ∈ created cli4 /\
     repo_group_section cli4 = (Ok (Some (l_group nl)), cli4)) /\
    create_subsection (Some (l_group nl))
      SECTION_EXPORT (DESC_GROUP_EXPORT (fun s => s)) cli4
      = (Ok (Some (l_group_export nl)), cli5) /\
    ensure_repo_structure (fun s => s) fresh_cli
      = (Ok (Some (l_repo nl)), cli5).
Proof.
  split; [split; vm_compute; reflexivity|].
  apply (creation_branch_lookups_resolve
           (fun s => s) fresh_cli 2%positive rpm_only_cli);
    vm_compute; reflexivity.
Defined.

(** * The further properties at concrete states *)

Lemma resolved_path_stays_resolved_witness :
  _find_section ["rpm"] rpm_only_cli = (Ok (Some 2%positive), rpm_only_cli) /\
  let ops := [EnsureRepoStructure; Access Publish; EnsureRoot] in
  _find_section ["rpm"] (run_all (fun s => s) ops rpm_only_cli)
    = (Ok (Some 2%positive), run_all (fun s => s) ops rpm_only_cli).
Proof.
  split; [vm_compute; reflexivity|].
  apply (resolved_path_stays_resolved (fun s => s)).
  vm_compute; reflexivity.
Defined.

Lemma ensure_repo_structure_returns_repo_section_witness :
  wf mixed_cli /\
  exists r cli',
    ensure_repo_structure (fun s => s) mixed_cli = (Ok (Some r), cli') /\
    is_Some (heap cli' !! r) /\
    repo_section cli' = (Ok (Some r), cli').
Proof.
  split; [apply wfb_sound; vm_compute; reflexivity|].
  apply (ensure_repo_structure_returns_repo_section (fun s => s)).
  apply wfb_sound; vm_compute; reflexivity.
Defined.

Lemma creation_branch_builds_schema_witness :
  (ensure_root (fun s => s) fresh_cli = (Ok (Some 2%positive), rpm_only_cli) /\
   heap rpm_only_cli !! 2%positive =
     Some (mkSection "rpm" "manage RPM-related content and features" []) /\
   lookup_name SECTION_REPO [] = None) /\
  exists nl cli',
    ensure_repo_structure (fun s => s) fresh_cli
      = (Ok (Some (l_repo nl)), cli') /\
    (forall a,
       accessor_section a cli' = (Ok (Some (accessor_loc nl a)), cli') /\
       heap cli' !! accessor_loc nl a =
         Some (mkSection (schema_name a) (schema_description (fun s => s) a)
                         (schema_children nl a))) /\
    heap cli' !! 2%positive =
      Some (mkSection "rpm" "manage RPM-related content and features"
                      ([] ++ [(SECTION_REPO, l_repo nl)])).
Proof.
  split; [repeat split; vm_compute; reflexivity|].
  apply (creation_branch_builds_schema (fun s => s) fresh_cli 2%positive
           rpm_only_cli
           (mkSection "rpm" "manage RPM-related content and features" []));
    vm_compute; reflexivity.
Defined.

Lemma accessors_return_distinct_sections_witness :
  (ensure_root (fun s => s) fresh_cli = (Ok (Some 2%positive), rpm_only_cli) /\
   find_subsection (Some 2%positive) SECTION_REPO rpm_only_cli
     = (Ok None, rpm_only_cli)) /\
  exists nl cli',
    ensure_repo_structure (fun s => s) fresh_cli
      = (Ok (Some (l_repo nl)), cli') /\
    (forall a,
       accessor_section a cli' = (Ok (Some (accessor_loc nl a)), cli')) /\
    (forall a b, accessor_loc nl a = accessor_loc nl b -> a = b) /\
    l_export nl <> l_group_export nl.
Proof.
  split; [split; vm_compute; reflexivity|].
  apply (accessors_return_distinct_sections (fun s => s) fresh_cli 2%positive
           rpm_only_cli); vm_compute; reflexivity.
Defined.

Lemma ensure_repo_structure_creation_count_witness :
  wf mixed_cli /\
  exists r cli' evs,
    ensure_repo_structure (fun s => s) mixed_cli = (Ok (Some r), cli') /\
    created cli' = created mixed_cli ++ evs /\
    length evs = 11.
Proof.
  split; [apply wfb_sound; vm_compute; reflexivity|].
  apply (ensure_repo_structure_creation_count (fun s => s) mixed_cli).
  apply wfb_sound; vm_compute; reflexivity.
Defined.

Lemma partial_repo_is_not_repaired_witness :
  (repo_section repo_only_cli = (Ok (Some 3%positive), repo_only_cli) /\
   find_subsection (Some 3%positive) SECTION_SYNC repo_only_cli
     = (Ok None, repo_only_cli)) /\
  ensure_repo_structure (fun s => s) repo_only_cli
    = (Ok (Some 3%positive), repo_only_cli) /\
  (ensure_repo_structure (fun s => s) ;;; repo_sync_section) repo_only_cli
    = (Ok None, repo_only_cli) /\
  (ensure_repo_structure (fun s => s) ;;; repo_sync_schedules_section)
    repo_only_cli = (Raise AttributeError, repo_only_cli).
Proof.
  split; [split; vm_compute; reflexivity|].
  apply (partial_repo_is_not_repaired (fun s => s) repo_only_cli 3%positive);
    vm_compute; reflexivity.
Defined.

Lemma ensure_repo_structure_frame_witness :
  wf mixed_cli /\
  exists r cli',
    ensure_repo_structure (fun s => s) mixed_cli = (Ok (Some r), cli') /\
    forall q s,
      heap mixed_cli !! q = Some s ->
      q <> root_section mixed_cli ->
      find_section SECTION_ROOT mixed_cli <> (Ok (Some q), mixed_cli) ->
      heap cli' !! q = Some s.
Proof.
  split; [apply wfb_sound; vm_compute; reflexivity|].
  apply (ensure_repo_structure_frame (fun s => s) mixed_cli).
  apply wfb_sound; vm_compute; reflexivity.
Defined.

Lemma ensure_root_frame_witness :
  ensure_root (fun s => s) fresh_cli = (Ok (Some 2%positive), rpm_only_cli) /\
  exists s,
    heap fresh_cli !! root_section fresh_cli = Some s /\
    (lookup_name SECTION_ROOT (subsections s) = Some 2%positive /\
     rpm_only_cli = fresh_cli \/
     lookup_name SECTION_ROOT (subsections s) = None /\
     heap fresh_cli !! 2%positive = None /\
     heap rpm_only_cli !! root_section fresh_cli =
       Some (mkSection (name s) (description s)
                       (subsections s ++ [(SECTION_ROOT, 2%positive)])) /\
     heap rpm_only_cli !! 2%positive =
       Some (mkSection SECTION_ROOT (DESC_ROOT (fun s => s)) []) /\
     (forall q, q <> root_section fresh_cli -> q <> 2%positive ->
                heap rpm_only_cli !! q = heap fresh_cli !! q)).
Proof.
  split; [vm_compute; reflexivity|].
  apply (ensure_root_frame (fun s => s) fresh_cli 2%positive rpm_only_cli).
  vm_compute; reflexivity.
Defined.

Lemma accessor_outcomes_witness :
  wf rpm_only_cli /\
  ((exists l,
      accessor_section Repo rpm_only_cli = (Ok (Some l), rpm_only_cli) /\
      is_Some (heap rpm_only_cli !! l)) \/
   accessor_section Repo rpm_only_cli = (Ok None, rpm_only_cli) \/
   accessor_section Repo rpm_only_cli = (Raise AttributeError, rpm_only_cli)).
Proof.
  split; [apply wfb_sound; vm_compute; reflexivity|].
  apply (accessor_outcomes Repo rpm_only_cli).
  apply wfb_sound; vm_compute; reflexivity.
Defined.

Lemma ensure_repo_structure_settled_witness :
  repo_section partial_cli = (Ok (Some 3%positive), partial_cli) /\
  let ops := [Access SyncSchedules; EnsureRoot; EnsureRepoStructure] in
  ensure_repo_structure (fun s => s) (run_all (fun s => s) ops partial_cli)
    = (Ok (Some 3%positive), run_all (fun s => s) ops partial_cli).
Proof.
  split; [vm_compute; reflexivity|].
  apply (ensure_repo_structure_settled (fun s => s)).
  vm_compute; reflexivity.
Defined.
